(** * Industrial gauge digitizer: the extraction core and the session log

    A shallow embedding of [app.py]: the image encoder
    ([encode_image_to_base64]), the tolerant JSON extraction
    ([extract_json]), the model fallback chain ([analyze_gauge]), the
    handler that stages an analysis result, the verification form and
    the commit of a verified record to the session log.

    Python values are an inductive type, dictionaries are finite maps,
    exceptions are an explicit [Raise] outcome, and the remote client is
    an oracle whose requests are logged.  The library functions the
    program rests on are written out: [json.loads] and [re.search] with
    the pattern of the source in the modules [json] and [re],
    [base64.b64encode] in [base64], and the two calls of Pillow in
    [PIL]. *)

From Stdlib Require Import ZArith Ascii String List Lia.
From stdpp Require Import base option list gmap strings pretty.

Set Warnings "-register-all".
Open Scope string_scope.

(** ** Python values, exceptions and outcomes *)

(** A [float] is kept as the literal it was read from ([float(lexeme)]);
    the three constants are the ones [json] produces for [NaN],
    [Infinity] and [-Infinity]. *)
Inductive pyfloat : Type :=
  | FloatOf (lexeme : string)
  | FloatNaN
  | FloatInf
  | FloatNegInf.

(** The objects [json.loads] can build, and [None] for an empty
    staging slot.  A [str] is the sequence of its UTF-8 bytes. *)
Inductive value : Type :=
  | PyNone
  | PyBool (b : bool)
  | PyInt (n : Z)
  | PyFloat (x : pyfloat)
  | PyStr (s : string)
  | PyList (items : list value)
  | PyDict (entries : gmap string value).

Inductive exn_class : Type :=
  | JSONDecodeError
  | ValueError
  | TypeError
  | KeyError
  | IndexError
  | RecursionError
  | OverflowError
  | ClientError.

(** An exception object: its class and [str(e)].  Every class above is
    a subclass of [Exception]; [JSONDecodeError] is also a
    [ValueError], but not the other way round. *)
Record exn : Type := Exn { exn_class_of : exn_class; str_exn : string }.

Inductive result (A : Type) : Type :=
  | Return (a : A)
  | Raise (e : exn).
Arguments Return {A} a.
Arguments Raise {A} e.

(** [except json.JSONDecodeError] *)
Definition is_JSONDecodeError (e : exn) : bool :=
  match exn_class_of e with
  | JSONDecodeError => true
  | _ => false
  end.

(** ** Characters *)

Definition dquote : ascii := "034"%char.
Definition backslash : ascii := "\"%char.

Definition ascii_eqb (a b : ascii) : bool := Ascii.eqb a b.

(** [' \t\n\r'], the whitespace of the JSON grammar *)
Definition is_ws (c : ascii) : bool :=
  ascii_eqb c " " || ascii_eqb c "009" || ascii_eqb c "010" || ascii_eqb c "013".

Definition is_digit (c : ascii) : bool :=
  let n := nat_of_ascii c in (48 <=? n)%nat && (n <=? 57)%nat.

Definition digit_val (c : ascii) : Z := (Z.of_nat (nat_of_ascii c) - 48)%Z.

Definition hex_val (c : ascii) : option Z :=
  let n := nat_of_ascii c in
  if (48 <=? n)%nat && (n <=? 57)%nat then Some (Z.of_nat n - 48)%Z
  else if (65 <=? n)%nat && (n <=? 70)%nat then Some (Z.of_nat n - 55)%Z
  else if (97 <=? n)%nat && (n <=? 102)%nat then Some (Z.of_nat n - 87)%Z
  else None.

Definition byte_of (n : Z) : ascii := ascii_of_nat (Z.to_nat n).

(** The UTF-8 bytes of a code point (a lone surrogate is written as its
    three-byte form). *)
Definition utf8 (cp : Z) : string :=
  if (cp <? 128)%Z then String (byte_of cp) ""
  else if (cp <? 2048)%Z then
    String (byte_of (192 + cp / 64)) (String (byte_of (128 + cp mod 64)) "")
  else if (cp <? 65536)%Z then
    String (byte_of (224 + cp / 4096))
      (String (byte_of (128 + (cp / 64) mod 64))
         (String (byte_of (128 + cp mod 64)) ""))
  else
    String (byte_of (240 + cp / 262144))
      (String (byte_of (128 + (cp / 4096) mod 64))
         (String (byte_of (128 + (cp / 64) mod 64))
            (String (byte_of (128 + cp mod 64)) ""))).

(** ** [json.loads]

    The decoder of the standard library on a [str], in its default
    configuration: the grammar it accepts, the objects it builds, and
    the three ways it can fail on a text (a decode error, the
    [ValueError] of [int()] on a literal with too many digits, and the
    [RecursionError] of arrays and objects nested deeper than the
    interpreter's stack allows). *)

Module json.

(** What one scanning step yields: a value with the rest of the text,
    a syntax error, an integer literal that [int()] refuses, an array
    or object ([what]) opened when no level of nesting is left, or the
    end of the calls the scanner was allowed. *)
Inductive scan (A : Type) : Type :=
  | Scanned (a : A) (rest : string)
  | Malformed
  | IntTooLong (digits : nat)
  | TooNested (what : string)
  | TooDeep.
Arguments Scanned {A} a rest.
Arguments Malformed {A}.
Arguments IntTooLong {A} digits.
Arguments TooNested {A} what.
Arguments TooDeep {A}.

Fixpoint skip_ws (s : string) : string :=
  match s with
  | String c s' => if is_ws c then skip_ws s' else s
  | EmptyString => s
  end.

(** [\uXXXX]: four hexadecimal digits *)
Definition hex4 (a b c d : ascii) : option Z :=
  match hex_val a, hex_val b, hex_val c, hex_val d with
  | Some x, Some y, Some z, Some w => Some (((x * 16 + y) * 16 + z) * 16 + w)%Z
  | _, _, _, _ => None
  end.

Definition simple_escape (c : ascii) : option ascii :=
  if ascii_eqb c dquote then Some dquote
  else if ascii_eqb c backslash then Some backslash
  else if ascii_eqb c "/" then Some "/"%char
  else if ascii_eqb c "b" then Some "008"%char
  else if ascii_eqb c "f" then Some "012"%char
  else if ascii_eqb c "n" then Some "010"%char
  else if ascii_eqb c "r" then Some "013"%char
  else if ascii_eqb c "t" then Some "009"%char
  else None.

Definition is_high_surrogate (u : Z) : bool := (55296 <=? u)%Z && (u <=? 56319)%Z.
Definition is_low_surrogate (u : Z) : bool := (56320 <=? u)%Z && (u <=? 57343)%Z.

(** The low half of a surrogate pair, when the text goes on with one. *)
Definition low_surrogate_escape (s : string) : option (Z * string) :=
  match s with
  | String b (String u (String h1 (String h2 (String h3 (String h4 rest))))) =>
      if ascii_eqb b backslash && ascii_eqb u "u" then
        match hex4 h1 h2 h3 h4 with
        | Some lo => if is_low_surrogate lo then Some (lo, rest) else None
        | None => None
        end
      else None
  | _ => None
  end.

Definition cons_str (prefix : string) (r : option (string * string))
  : option (string * string) :=
  match r with
  | Some (body, rest) => Some (prefix +:+ body, rest)
  | None => None
  end.

(** [scanstring] in strict mode, entered after the opening quote:
    the decoded string and the text after the closing quote. *)
Fixpoint scanstring (s : string) : option (string * string) :=
  match s with
  | EmptyString => None
  | String c s1 =>
      if ascii_eqb c dquote then Some ("", s1)
      else if ascii_eqb c backslash then
        match s1 with
        | EmptyString => None
        | String e s2 =>
            match simple_escape e with
            | Some ch => cons_str (String ch "") (scanstring s2)
            | None =>
                if ascii_eqb e "u" then
                  match s2 with
                  | String h1 (String h2 (String h3 (String h4 s6))) =>
                      match hex4 h1 h2 h3 h4 with
                      | None => None
                      | Some uni =>
                          if is_high_surrogate uni then
                            match s6 with
                            | String b (String u (String k1 (String k2 (String k3 (String k4 s12))))) =>
                                match low_surrogate_escape s6 with
                                | Some (lo, _) =>
                                    cons_str
                                      (utf8 (65536 + (uni - 55296) * 1024 + (lo - 56320)))
                                      (scanstring s12)
                                | None => cons_str (utf8 uni) (scanstring s6)
                                end
                            | _ => cons_str (utf8 uni) (scanstring s6)
                            end
                          else cons_str (utf8 uni) (scanstring s6)
                      end
                  | _ => None
                  end
                else None
            end
        end
      else if (nat_of_ascii c <? 32)%nat then None
      else cons_str (String c "") (scanstring s1)
  end.

(** The longest run of decimal digits at the head of the text. *)
Fixpoint span_digits (s : string) : string * string :=
  match s with
  | String c s' =>
      if is_digit c then
        let '(ds, rest) := span_digits s' in (String c ds, rest)
      else ("", s)
  | EmptyString => ("", s)
  end.

(** the integer part: [0], or a digit from 1 to 9 and further digits *)
Definition match_int_digits (s : string) : option (string * string) :=
  match s with
  | String c s' =>
      if ascii_eqb c "0" then Some ("0", s')
      else if is_digit c then Some (span_digits s)
      else None
  | EmptyString => None
  end.

(** the optional fraction: a dot and at least one digit *)
Definition match_frac (s : string) : string * string :=
  match s with
  | String c s' =>
      if ascii_eqb c "." then
        match span_digits s' with
        | (EmptyString, _) => ("", s)
        | (ds, rest) => (String c ds, rest)
        end
      else ("", s)
  | EmptyString => ("", s)
  end.

(** the optional exponent: [e] or [E], an optional sign, at least one digit *)
Definition match_exp (s : string) : string * string :=
  match s with
  | String c s' =>
      if ascii_eqb c "e" || ascii_eqb c "E" then
        match s' with
        | String g s'' =>
            if ascii_eqb g "-" || ascii_eqb g "+" then
              match span_digits s'' with
              | (EmptyString, _) => ("", s)
              | (ds, rest) => (String c (String g ds), rest)
              end
            else
              match span_digits s' with
              | (EmptyString, _) => ("", s)
              | (ds, rest) => (String c ds, rest)
              end
        | EmptyString => ("", s)
        end
      else ("", s)
  | EmptyString => ("", s)
  end.

(** [NUMBER_RE]: sign and integer part, fraction, exponent, rest *)
Definition match_number (s : string)
  : option (bool * string * string * string * string) :=
  let '(neg, s0) :=
    match s with
    | String c s' => if ascii_eqb c "-" then (true, s') else (false, s)
    | EmptyString => (false, s)
    end in
  match match_int_digits s0 with
  | None => None
  | Some (ds, s1) =>
      let '(frac, s2) := match_frac s1 in
      let '(exp, s3) := match_exp s2 in
      Some (neg, ds, frac, exp, s3)
  end.

Fixpoint Z_of_digits (acc : Z) (ds : string) : Z :=
  match ds with
  | String c ds' => Z_of_digits (acc * 10 + digit_val c)%Z ds'
  | EmptyString => acc
  end.

(** [sys.int_info.default_max_str_digits]: since CPython 3.11 (and the
    security releases of 3.7 to 3.10) [int()] refuses a decimal
    literal with more digits than this with a [ValueError]. *)
Definition int_max_str_digits : nat := 4300.

Definition scan_number (s : string) : option (scan value) :=
  match match_number s with
  | None => None
  | Some (neg, ds, frac, exp, rest) =>
      match frac, exp with
      | EmptyString, EmptyString =>
          if (int_max_str_digits <? String.length ds)%nat
          then Some (IntTooLong (String.length ds))
          else
            let n := Z_of_digits 0 ds in
            Some (Scanned (PyInt (if neg then - n else n)%Z) rest)
      | _, _ =>
          Some (Scanned
                  (PyFloat (FloatOf ((if neg then "-" else "") +:+ ds +:+ frac +:+ exp)))
                  rest)
      end
  end.

(** [string[idx:idx + len(word)] == word] *)
Fixpoint strip_prefix (word s : string) : option string :=
  match word, s with
  | EmptyString, _ => Some s
  | String a word', String b s' =>
      if ascii_eqb a b then strip_prefix word' s' else None
  | String _ _, EmptyString => None
  end.

Definition scan_constant (s : string) : scan value :=
  match strip_prefix "null" s with
  | Some rest => Scanned PyNone rest
  | None =>
  match strip_prefix "true" s with
  | Some rest => Scanned (PyBool true) rest
  | None =>
  match strip_prefix "false" s with
  | Some rest => Scanned (PyBool false) rest
  | None =>
  match scan_number s with
  | Some r => r
  | None =>
  match strip_prefix "NaN" s with
  | Some rest => Scanned (PyFloat FloatNaN) rest
  | None =>
  match strip_prefix "Infinity" s with
  | Some rest => Scanned (PyFloat FloatInf) rest
  | None =>
  match strip_prefix "-Infinity" s with
  | Some rest => Scanned (PyFloat FloatNegInf) rest
  | None => Malformed
  end end end end end end end.

(** The scanner: [scan_once] with [JSONArray] and [JSONObject].  The
    array and object loops are entered after their first item or key
    has been located.  [nesting] is the number of arrays and objects
    that may still be opened inside one another: the scanner enters a
    recursive call for each, before it reads anything of it, and
    leaves the call when the array or object is closed.  [depth]
    bounds the calls of this definition and is never used up (see
    [scan_depth]). *)
Fixpoint scan_once (depth nesting : nat) (s : string) : scan value :=
  match depth with
  | O => TooDeep
  | S depth' =>
      match s with
      | EmptyString => Malformed
      | String c s' =>
          if ascii_eqb c dquote then
            match scanstring s' with
            | Some (str, rest) => Scanned (PyStr str) rest
            | None => Malformed
            end
          else if ascii_eqb c "{" then
            match nesting with
            | O => TooNested "object"
            | S nesting' =>
                match skip_ws s' with
                | String k s'' =>
                    if ascii_eqb k "}" then Scanned (PyDict ∅) s''
                    else if ascii_eqb k dquote then
                      match scan_members depth' nesting' s'' ∅ with
                      | Scanned d rest => Scanned (PyDict d) rest
                      | Malformed => Malformed
                      | IntTooLong n => IntTooLong n
                      | TooNested what => TooNested what
                      | TooDeep => TooDeep
                      end
                    else Malformed
                | EmptyString => Malformed
                end
            end
          else if ascii_eqb c "[" then
            match nesting with
            | O => TooNested "array"
            | S nesting' =>
                match skip_ws s' with
                | String k s'' =>
                    if ascii_eqb k "]" then Scanned (PyList []) s''
                    else
                      match scan_items depth' nesting' (String k s'') with
                      | Scanned l rest => Scanned (PyList l) rest
                      | Malformed => Malformed
                      | IntTooLong n => IntTooLong n
                      | TooNested what => TooNested what
                      | TooDeep => TooDeep
                      end
                | EmptyString => Malformed
                end
            end
          else scan_constant s
      end
  end

(** the items of an array, from the start of an item on *)
with scan_items (depth nesting : nat) (s : string) : scan (list value) :=
  match depth with
  | O => TooDeep
  | S depth' =>
      match scan_once depth' nesting s with
      | Scanned v rest =>
          match skip_ws rest with
          | String c rest' =>
              if ascii_eqb c "]" then Scanned [v] rest'
              else if ascii_eqb c "," then
                match scan_items depth' nesting (skip_ws rest') with
                | Scanned l rest'' => Scanned (v :: l) rest''
                | Malformed => Malformed
                | IntTooLong n => IntTooLong n
                | TooNested what => TooNested what
                | TooDeep => TooDeep
                end
              else Malformed
          | EmptyString => Malformed
          end
      | Malformed => Malformed
      | IntTooLong n => IntTooLong n
      | TooNested what => TooNested what
      | TooDeep => TooDeep
      end
  end

(** the members of an object, from after the opening quote of a key
    on; [acc] is the dictionary built so far, a repeated key keeps
    its last value *)
with scan_members (depth nesting : nat) (s : string) (acc : gmap string value)
  : scan (gmap string value) :=
  match depth with
  | O => TooDeep
  | S depth' =>
      match scanstring s with
      | None => Malformed
      | Some (key, s1) =>
          match skip_ws s1 with
          | String c s2 =>
              if ascii_eqb c ":" then
                match scan_once depth' nesting (skip_ws s2) with
                | Scanned v s3 =>
                    match skip_ws s3 with
                    | String c' s4 =>
                        if ascii_eqb c' "}" then Scanned (<[key := v]> acc) s4
                        else if ascii_eqb c' "," then
                          match skip_ws s4 with
                          | String q s5 =>
                              if ascii_eqb q dquote
                              then scan_members depth' nesting s5 (<[key := v]> acc)
                              else Malformed
                          | EmptyString => Malformed
                          end
                        else Malformed
                    | EmptyString => Malformed
                    end
                | Malformed => Malformed
                | IntTooLong n => IntTooLong n
                | TooNested what => TooNested what
                | TooDeep => TooDeep
                end
              else Malformed
          | EmptyString => Malformed
          end
      end
  end.

Definition int_limit_message (digits : nat) : string :=
  "Exceeds the limit (" +:+ pretty int_max_str_digits
    +:+ " digits) for integer string conversion: value has "
    +:+ pretty digits
    +:+ " digits; use sys.set_int_max_str_digits() to increase the limit".

(** The message of a decode error is not modelled: [extract_json]
    is the only caller and both of its handlers discard it. *)
Definition decode_error : exn := Exn JSONDecodeError "".

(** [str(e)] of the [RecursionError] the scanner raises *)
Definition recursion_message (what : string) : string :=
  "maximum recursion depth exceeded while decoding a JSON " +:+ what
    +:+ " from a unicode string".

(** [json.loads(text)] for a [str], called where the interpreter's
    stack leaves room for [nesting] arrays and objects inside one
    another: leading whitespace, one value, trailing whitespace,
    nothing else ("Extra data").  The scanner is given twice the
    length of the text plus two calls, which no text uses up. *)
Definition loads_within (nesting : nat) (text : string) : result value :=
  match scan_once (2 * String.length text + 2) nesting (skip_ws text) with
  | Scanned v rest =>
      match skip_ws rest with
      | EmptyString => Return v
      | String _ _ => Raise decode_error
      end
  | Malformed => Raise decode_error
  | IntTooLong n => Raise (Exn ValueError (int_limit_message n))
  | TooNested what => Raise (Exn RecursionError (recursion_message what))
  | TooDeep => Raise (Exn RecursionError "maximum recursion depth exceeded")
  end.

(** The room that is left when [extract_json] is called from the top
    level of a script: with the recursion limit of 1000 that CPython
    3.11 starts with, the frames of the script, of [extract_json] and
    of the decoder leave 994 levels to the scanner.  Every frame
    between the top level and [extract_json] takes one level away; the
    properties that depend on the room are stated with [loads_within]
    for any room. *)
Definition nesting_limit : nat := 994.

Definition loads (text : string) : result value :=
  loads_within nesting_limit text.

End json.

(** The texts below are written with an apostrophe where the Python
    text has a double quote; [lit] puts the double quotes back. *)
Fixpoint lit (s : string) : string :=
  match s with
  | String c s' => String (if ascii_eqb c "'" then dquote else c) (lit s')
  | EmptyString => EmptyString
  end.

(** ** [re.search(r'\{.*\}', text, re.DOTALL)] *)

Module re.

(** The rest of the pattern after the opening brace: a greedy [.]
    repeated over any characters (newlines too, by [DOTALL]) and a
    closing brace.  The repetition first takes everything and gives
    characters back until a closing brace follows, so the match is the
    longest prefix of [s] that ends with one. *)
Fixpoint match_any_then_rbrace (s : string) : option string :=
  match s with
  | EmptyString => None
  | String c s' =>
      match match_any_then_rbrace s' with
      | Some m => Some (String c m)
      | None => if ascii_eqb c "}" then Some (String c EmptyString) else None
      end
  end.

(** [search] tries the start positions from left to right and stops at
    the first where the pattern matches; the result is
    [match.group()]. *)
Fixpoint search_braces (text : string) : option string :=
  match text with
  | EmptyString => None
  | String c s' =>
      if ascii_eqb c "{" then
        match match_any_then_rbrace s' with
        | Some m => Some (String c m)
        | None => search_braces s'
        end
      else search_braces s'
  end.

End re.

(** The span as the specification words it: from the first opening
    brace to the last closing brace of the text. *)
Fixpoint find_first (c : ascii) (s : string) : option nat :=
  match s with
  | EmptyString => None
  | String a s' => if ascii_eqb a c then Some 0%nat else S <$> find_first c s'
  end.

Fixpoint find_last (c : ascii) (s : string) : option nat :=
  match s with
  | EmptyString => None
  | String a s' =>
      match find_last c s' with
      | Some i => Some (S i)
      | None => if ascii_eqb a c then Some 0%nat else None
      end
  end.

Definition brace_span (text : string) : option string :=
  match find_first "{" text, find_last "}" text with
  | Some i, Some j =>
      if (i <? j)%nat then Some (String.substring i (j - i + 1) text) else None
  | _, _ => None
  end.

(** ** [extract_json] *)

(** [{"error": "Failed to parse JSON", "raw": text}] *)
Definition parse_failure (text : string) : value :=
  PyDict {[ "error" := PyStr "Failed to parse JSON"; "raw" := PyStr text ]}.

(** The outer [try] returns the strict parse and handles
    [json.JSONDecodeError] only, so any other exception of
    [json.loads] leaves the function.  In the handler the bare
    [except:] around the parse of the match catches everything, and
    every path that has not returned ends at the last line. *)
Definition extract_json (text : string) : result value :=
  match json.loads text with
  | Return v => Return v
  | Raise e =>
      if is_JSONDecodeError e then
        match re.search_braces text with
        | Some group =>
            match json.loads group with
            | Return v => Return v
            | Raise _ => Return (parse_failure text)
            end
        | None => Return (parse_failure text)
        end
      else Raise e
  end.

(** [extract_json] called where the stack leaves room for [nesting]
    levels: both parses run in the frame of [extract_json], so they
    are given the same room.  [extract_json] is the case of
    [json.nesting_limit]. *)
Definition extract_json_within (nesting : nat) (text : string) : result value :=
  match json.loads_within nesting text with
  | Return v => Return v
  | Raise e =>
      if is_JSONDecodeError e then
        match re.search_braces text with
        | Some group =>
            match json.loads_within nesting group with
            | Return v => Return v
            | Raise _ => Return (parse_failure text)
            end
        | None => Return (parse_failure text)
        end
      else Raise e
  end.

(** The algorithm as the specification words it: the strict parse of
    the whole text first; if that fails, in whatever way, the span from
    the first opening brace to the last closing brace is parsed; the
    failure mapping when neither gives a value. *)
Definition strict_then_span (text : string) : value :=
  match json.loads text with
  | Return v => v
  | Raise _ =>
      match brace_span text with
      | Some span =>
          match json.loads span with
          | Return v => v
          | Raise _ => parse_failure text
          end
      | None => parse_failure text
      end
  end.

(** ** The remote client *)

(** The keyword arguments of [client.chat.completions.create]. *)
Record request : Type := Request {
  req_model : string;
  req_messages : value;
  req_temperature : Z;
  req_response_format : value
}.

Record chat_message : Type := ChatMessage { content : string }.
Record choice : Type := Choice { message : chat_message }.
Record chat_completion : Type := ChatCompletion { choices : list choice }.

(** The service: what a request yields, given the requests made before
    it. *)
Definition client_t : Type := list request -> request -> result chat_completion.

(** Code that talks to the client: it reads the log of the requests
    made so far, returns or raises, and leaves the log extended. *)
Definition io (A : Type) : Type := list request -> result A * list request.

Definition io_ret {A} (a : A) : io A := fun log => (Return a, log).

Definition io_lift {A} (r : result A) : io A := fun log => (r, log).

Definition io_bind {A B} (m : io A) (k : A -> io B) : io B :=
  fun log =>
    match m log with
    | (Return a, log') => k a log'
    | (Raise e, log') => (Raise e, log')
    end.

Notation "'let*' x ':=' m 'in' k" := (io_bind m (fun x => k))
  (at level 10, x name, m at level 100, k at level 200).

(** [xs[0]] *)
Definition index0 {A} (xs : list A) : result A :=
  match xs with
  | x :: _ => Return x
  | [] => Raise (Exn IndexError "list index out of range")
  end.

(** ** [analyze_gauge] *)

Definition prompt : string := lit "
    Analyze this industrial gauge. Return strictly JSON:
    {
        'reading': <number>,
        'unit': '<string>',
        'condition': '<Good/Warning/Critical>',
        'reasoning': '<short explanation>'
    }
    ".

Definition models : list string :=
  [ "meta-llama/llama-4-scout-17b-16e-instruct";
    "llama-3.2-90b-vision-preview";
    "llama-3.2-11b-vision-preview" ].

Definition request_for (image_base64 model_id : string) : request :=
  {| req_model := model_id;
     req_messages :=
       PyList
         [ PyDict
             {[ "role" := PyStr "user";
                "content" :=
                  PyList
                    [ PyDict {[ "type" := PyStr "text"; "text" := PyStr prompt ]};
                      PyDict
                        {[ "type" := PyStr "image_url";
                           "image_url" :=
                             PyDict
                               {[ "url" :=
                                    PyStr ("data:image/jpeg;base64," +:+ image_base64) ]} ]} ] ]} ];
     req_temperature := 0;
     req_response_format := PyDict {[ "type" := PyStr "json_object" ]} |}.

(** [{"error": f"All models failed. Last error: {last_error}"}] *)
Definition all_failed (last_error : string) : value :=
  PyDict {[ "error" := PyStr ("All models failed. Last error: " +:+ last_error) ]}.

Section Analysis.

Variable client : client_t.

Definition create (req : request) : io chat_completion :=
  fun log => (client log req, (log ++ [req])%list).

(** The body of the [try]: the request, then
    [extract_json(completion.choices[0].message.content)]. *)
Definition attempt (image_base64 model_id : string) : io value :=
  let* completion := create (request_for image_base64 model_id) in
  let* first := io_lift (index0 (choices completion)) in
  io_lift (extract_json (content (message first))).

(** The [for] loop over the candidates that are left, and the
    [return] after it.  [except Exception as e] keeps [str(e)] and
    goes on with the next candidate. *)
Fixpoint try_models (image_base64 : string) (candidates : list string)
    (last_error : string) : io value :=
  match candidates with
  | [] => io_ret (all_failed last_error)
  | model_id :: rest =>
      fun log =>
        match attempt image_base64 model_id log with
        | (Return v, log') => (Return v, log')
        | (Raise e, log') => try_models image_base64 rest (str_exn e) log'
        end
  end.

Definition analyze_gauge (image_base64 : string) : io value :=
  try_models image_base64 models "".

End Analysis.

(** ** Python's [in] and subscript on the values [analyze_gauge] returns *)

Definition type_name (v : value) : string :=
  match v with
  | PyNone => "NoneType"
  | PyBool _ => "bool"
  | PyInt _ => "int"
  | PyFloat _ => "float"
  | PyStr _ => "str"
  | PyList _ => "list"
  | PyDict _ => "dict"
  end.

Fixpoint contains_substring (needle hay : string) : bool :=
  String.prefix needle hay
  || match hay with
     | String _ hay' => contains_substring needle hay'
     | EmptyString => false
     end.

(** [item == key] for a [str] key *)
Definition eq_str (key : string) (item : value) : bool :=
  match item with
  | PyStr s => bool_decide (s = key)
  | _ => false
  end.

(** [key in container]: a key of a dict, an item of a list, a substring
    of a str; the other types are not containers. *)
Definition py_in (key : string) (container : value) : result bool :=
  match container with
  | PyDict d => Return (bool_decide (is_Some (d !! key)))
  | PyList l => Return (existsb (eq_str key) l)
  | PyStr s => Return (contains_substring key s)
  | v =>
      Raise (Exn TypeError ("argument of type '" +:+ type_name v +:+ "' is not iterable"))
  end.

(** [container[key]] for a [str] key *)
Definition py_getitem (container : value) (key : string) : result value :=
  match container with
  | PyDict d =>
      match d !! key with
      | Some v => Return v
      | None => Raise (Exn KeyError ("'" +:+ key +:+ "'"))
      end
  | PyList _ => Raise (Exn TypeError "list indices must be integers or slices, not str")
  | PyStr _ => Raise (Exn TypeError "string indices must be integers, not 'str'")
  | v => Raise (Exn TypeError ("'" +:+ type_name v +:+ "' object is not subscriptable"))
  end.

(** ** The session: staged result and log *)

(** A row of the log: the dict built by the commit, with its six fixed
    keys. *)
Record verified_record : Type := VerifiedRecord {
  rec_Time : string;
  rec_Reading : pyfloat;
  rec_Unit : string;
  rec_Condition : string;
  rec_Notes : string;
  rec_Verified : bool
}.

(** [st.session_state]: [history] starts as [[]], [staging_data] as
    [None]. *)
Record session_state : Type := SessionState {
  history : list verified_record;
  staging_data : value
}.

Definition initial_session : session_state :=
  {| history := []; staging_data := PyNone |}.

(** What the script shows or asks of the runtime.  [st_error v] is
    [st.error(f"Error: {v}")], with the interpolated object kept as it
    is. *)
Inductive ui_event : Type :=
  | st_error (interpolated : value)
  | st_success (text : string)
  | st_rerun.

(** The branch of the Analyze handler on the result of
    [analyze_gauge]. *)
Definition handle_analysis (ai_data : value) (st : session_state)
  : result (session_state * list ui_event) :=
  match py_in "error" ai_data with
  | Raise e => Raise e
  | Return true =>
      match py_getitem ai_data "error" with
      | Return shown => Return (st, [st_error shown])
      | Raise e => Raise e
      end
  | Return false =>
      Return ({| history := history st; staging_data := ai_data |}, [st_rerun])
  end.

(** The Analyze handler from the encoded image on. *)
Definition analyze_telemetry (client : client_t) (base64_img : string)
    (st : session_state) : io (session_state * list ui_event) :=
  let* ai_data := analyze_gauge client base64_img in
  io_lift (handle_analysis ai_data st).

(** The values of the verification form when it is submitted. *)
Record form_values : Type := FormValues {
  new_reading : pyfloat;
  new_unit : string;
  new_condition : string;
  new_notes : string
}.

Definition make_record (timestamp : string) (f : form_values) : verified_record :=
  {| rec_Time := timestamp;
     rec_Reading := new_reading f;
     rec_Unit := new_unit f;
     rec_Condition := new_condition f;
     rec_Notes := new_notes f;
     rec_Verified := true |}.

(** The commit: [history.insert(0, record)], then the staging slot is
    set to [None]. *)
Definition commit (timestamp : string) (f : form_values) (st : session_state)
  : session_state * list ui_event :=
  ({| history := make_record timestamp f :: history st; staging_data := PyNone |},
   [st_success "Record Saved!"; st_rerun]).

(** The two operations that change the session. *)
Inductive action : Type :=
  | Analyzed (ai_data : value)
  | Committed (timestamp : string) (f : form_values).

Definition step (st : session_state) (a : action) : session_state :=
  match a with
  | Analyzed ai_data =>
      match handle_analysis ai_data st with
      | Return (st', _) => st'
      | Raise _ => st
      end
  | Committed timestamp f => fst (commit timestamp f st)
  end.

Definition run (actions : list action) (st : session_state) : session_state :=
  fold_left step actions st.

(** The records the commits of a run build, oldest first. *)
Fixpoint committed_records (actions : list action) : list verified_record :=
  match actions with
  | [] => []
  | Analyzed _ :: rest => committed_records rest
  | Committed timestamp f :: rest => make_record timestamp f :: committed_records rest
  end.

(** ** Runs of the chain *)

(** The attempts on [candidates], made one after the other from [log]
    on, all raise, with [errors] in that order. *)
Fixpoint attempts_raise (client : client_t) (image_base64 : string)
    (candidates : list string) (log : list request) (errors : list exn) : Prop :=
  match candidates, errors with
  | [], [] => True
  | model_id :: rest, e :: errors' =>
      fst (attempt client image_base64 model_id log) = Raise e
      /\ attempts_raise client image_base64 rest
           (log ++ [request_for image_base64 model_id])%list errors'
  | _, _ => False
  end.

(** The requests for [candidates], made one after the other from [log]
    on, all raise, with [errors] in that order. *)
Fixpoint requests_raise (client : client_t) (image_base64 : string)
    (candidates : list string) (log : list request) (errors : list exn) : Prop :=
  match candidates, errors with
  | [], [] => True
  | model_id :: rest, e :: errors' =>
      client log (request_for image_base64 model_id) = Raise e
      /\ requests_raise client image_base64 rest
           (log ++ [request_for image_base64 model_id])%list errors'
  | _, _ => False
  end.

(** [last_error] after the loop has seen [errors]. *)
Definition last_description (initial : string) (errors : list exn) : string :=
  match last errors with
  | Some e => str_exn e
  | None => initial
  end.

(** [key in d] for a result that is a dict. *)
Definition has_key (key : string) (v : value) : Prop :=
  exists d, v = PyDict d /\ is_Some (d !! key).

Definition is_mapping (v : value) : Prop := exists d, v = PyDict d.

(** ** Scripted clients and texts used as examples *)

Definition completion_of (text : string) : chat_completion :=
  ChatCompletion [Choice (ChatMessage text)].

(** A service whose answer depends on the requested model only. *)
Definition scripted (script : string -> result chat_completion) : client_t :=
  fun _ req => script (req_model req).

Fixpoint repeat_char (n : nat) (c : ascii) : string :=
  match n with
  | O => EmptyString
  | S n' => String c (repeat_char n' c)
  end.

Definition steady_body : string :=
  lit "{'reading': 42.5, 'unit': 'PSI', 'condition': 'Good', 'reasoning': 'steady'}".

Definition steady_mapping : value :=
  PyDict {[ "reading" := PyFloat (FloatOf "42.5"); "unit" := PyStr "PSI";
            "condition" := PyStr "Good"; "reasoning" := PyStr "steady" ]}.

(** a JSON object whose reading is an integer of 4301 digits *)
Definition long_integer_body : string :=
  lit "{'reading': " +:+ repeat_char 4301 "1" +:+ "}".

Definition scout : string := "meta-llama/llama-4-scout-17b-16e-instruct".
Definition vision_90b : string := "llama-3.2-90b-vision-preview".
Definition vision_11b : string := "llama-3.2-11b-vision-preview".

(** the first candidate is unavailable, the second answers *)
Definition second_answers : client_t :=
  scripted (fun model_id =>
    if bool_decide (model_id = scout) then Raise (Exn ClientError "model unavailable")
    else if bool_decide (model_id = vision_90b) then Return (completion_of steady_body)
    else Return (completion_of "{}")).

(** every candidate is down, each with its own description *)
Definition all_down : client_t :=
  scripted (fun model_id =>
    if bool_decide (model_id = scout) then Raise (Exn ClientError "rate limit reached")
    else if bool_decide (model_id = vision_90b) then Raise (Exn ClientError "model decommissioned")
    else Raise (Exn ClientError "connection error")).

(** the first candidate answers with the long integer, the second with
    the steady reading *)
Definition long_integer_first : client_t :=
  scripted (fun model_id =>
    if bool_decide (model_id = scout) then Return (completion_of long_integer_body)
    else Return (completion_of steady_body)).

(** the first candidate returns a completion that has no choice, the
    second answers the steady reading *)
Definition no_choice_first : client_t :=
  scripted (fun model_id =>
    if bool_decide (model_id = scout) then Return (ChatCompletion [])
    else Return (completion_of steady_body)).

(** every candidate answers with the given text *)
Definition always_answers (text : string) : client_t :=
  scripted (fun _ => Return (completion_of text)).


(** ** What holds of the session between two reruns *)

(** Every row of the log is marked verified, and the staging slot is
    empty or holds a value in which the handler found no [error]. *)
Definition session_ok (st : session_state) : Prop :=
  Forall (fun r => rec_Verified r = true) (history st)
  /\ (staging_data st = PyNone \/ py_in "error" (staging_data st) = Return false).

(** ** The verification form *)

(** The operations on [float] that the form needs and that depend on
    the floating-point value a literal denotes: [x == 0.0] (the truth
    value of a float), [float(n)] for an [int], [float(s)] for a
    [str], and whether a float lies within the bounds that
    [st.number_input] checks the value it is created with against (the
    range of the numbers of JavaScript).  The form is written over any
    such operations. *)
Record float_ops : Type := FloatOps {
  float_is_zero : pyfloat -> bool;
  float_of_int : Z -> result pyfloat;
  float_of_str : string -> result pyfloat;
  float_in_js_bounds : pyfloat -> bool
}.

(** What the form can raise: the exceptions above, the
    [AttributeError] of a method looked up on an object that has none
    of that name, and the error of [st.number_input] on a value outside
    its bounds, whose message is not modelled. *)
Inductive py_error : Type :=
  | Builtin (e : exn)
  | AttributeError (description : string)
  | StreamlitJSNumberBoundsError.

Inductive outcome (A : Type) : Type :=
  | Done (a : A)
  | Failed (e : py_error).
Arguments Done {A} a.
Arguments Failed {A} e.

Definition of_result {A} (r : result A) : outcome A :=
  match r with
  | Return a => Done a
  | Raise e => Failed (Builtin e)
  end.

Definition outcome_bind {A B} (m : outcome A) (k : A -> outcome B) : outcome B :=
  match m with
  | Done a => k a
  | Failed e => Failed e
  end.

Notation "'let!' x ':=' m 'in' k" := (outcome_bind m (fun x => k))
  (at level 10, x name, m at level 100, k at level 200).

(** [obj.get(key, default)]: the method of a dict. *)
Definition py_get (obj : value) (key : string) (default : value) : outcome value :=
  match obj with
  | PyDict d =>
      Done (match d !! key with
            | Some v => v
            | None => default
            end)
  | v => Failed (AttributeError ("'" +:+ type_name v +:+ "' object has no attribute 'get'"))
  end.

Definition cond_options : list string := ["Good"; "Warning"; "Critical"; "Damaged"].

(** [for i, opt in enumerate(options): if opt in ai_cond: default_idx = i],
    from index [i] on. *)
Fixpoint scan_options (options : list string) (i : nat) (ai_cond : value)
    (default_idx : nat) : result nat :=
  match options with
  | [] => Return default_idx
  | opt :: rest =>
      match py_in opt ai_cond with
      | Return true => scan_options rest (S i) ai_cond i
      | Return false => scan_options rest (S i) ai_cond default_idx
      | Raise e => Raise e
      end
  end.

(** The arguments the widgets of the form are created with. *)
Record form_view : Type := FormView {
  reading_value : pyfloat;
  unit_value : value;
  condition_index : nat;
  notes_value : value
}.

(** What the right column shows above the log: nothing, or the banner
    and the form. *)
Inductive panel_view : Type :=
  | NotRendered
  | FormShown (widgets : form_view).

Section Form.

Variable F : float_ops.

(** [bool(v)] *)
Definition py_truthy (v : value) : bool :=
  match v with
  | PyNone => false
  | PyBool b => b
  | PyInt n => negb (n =? 0)%Z
  | PyFloat x => negb (float_is_zero F x)
  | PyStr s => negb (String.eqb s "")
  | PyList l => match l with [] => false | _ :: _ => true end
  | PyDict d => negb (bool_decide (d = ∅))
  end.

(** [a or b] *)
Definition py_or (a b : value) : value := if py_truthy a then a else b.

(** [float(v)] *)
Definition py_float (v : value) : result pyfloat :=
  match v with
  | PyFloat x => Return x
  | PyInt n => float_of_int F n
  | PyBool b => float_of_int F (if b then 1 else 0)%Z
  | PyStr s => float_of_str F s
  | v =>
      Raise (Exn TypeError
               ("float() argument must be a string or a real number, not '"
                  +:+ type_name v +:+ "'"))
  end.

(** [c1.number_input("Pressure Reading", value=x)] for a [float]: the
    widget is created with [x] unless [x] is outside its bounds. *)
Definition number_input (x : pyfloat) : outcome pyfloat :=
  if float_in_js_bounds F x then Done x
  else Failed StreamlitJSNumberBoundsError.

(** The body of the form down to its last widget. *)
Definition form_defaults (stage : value) : outcome form_view :=
  let! reading := py_get stage "reading" PyNone in
  let! converted := of_result (py_float (py_or reading (PyFloat (FloatOf "0.0")))) in
  let! default_reading := number_input converted in
  let! unit := py_get stage "unit" (PyStr "PSI") in
  let! ai_cond := py_get stage "condition" (PyStr "Good") in
  let! default_idx := of_result (scan_options cond_options 0 ai_cond 0) in
  let! notes := py_get stage "reasoning" (PyStr "") in
  Done {| reading_value := default_reading;
          unit_value := unit;
          condition_index := default_idx;
          notes_value := notes |}.

(** The staging area of the right column.  [submitted] holds the time
    and the values of the widgets when the submit button was pressed
    in this run. *)
Definition verification_panel (submitted : option (string * form_values))
    (st : session_state) : outcome (session_state * panel_view * list ui_event) :=
  if py_truthy (staging_data st) then
    let! widgets := form_defaults (staging_data st) in
    match submitted with
    | Some (timestamp, f) =>
        let '(st', events) := commit timestamp f st in
        Done (st', FormShown widgets, events)
    | None => Done (st, FormShown widgets, [])
    end
  else Done (st, NotRendered, []).

End Form.

(** ** Float operations on decimal literals

    The operations of [float_ops] computed from the literal a float is
    kept as: a decimal literal denotes the double nearest to its value,
    ties to even, so it denotes zero from half the smallest subnormal
    down, and infinity from half a step above the largest double up. *)

(** The digits of a literal and its decimal exponent, sign apart: the
    literal [12.5e3] is [125 * 10 ^ 2]. *)
Definition decimal_of (lexeme : string) : Z * Z :=
  let body :=
    match lexeme with
    | String c s' => if ascii_eqb c "-" || ascii_eqb c "+" then s' else lexeme
    | EmptyString => lexeme
    end in
  let '(int_part, s1) := json.span_digits body in
  let '(frac_part, s2) :=
    match s1 with
    | String c s' => if ascii_eqb c "." then json.span_digits s' else ("", s1)
    | EmptyString => ("", s1)
    end in
  let exponent :=
    match s2 with
    | String _ (String g s') =>
        if ascii_eqb g "-" then (- json.Z_of_digits 0 s')%Z
        else if ascii_eqb g "+" then json.Z_of_digits 0 s'
        else json.Z_of_digits 0 (String g s')
    | _ => 0%Z
    end in
  (json.Z_of_digits 0 (int_part +:+ frac_part),
   (exponent - Z.of_nat (String.length frac_part))%Z).

(** [m * 10 ^ k <= p / q], for a positive [q] *)
Definition decimal_le (m k p q : Z) : bool :=
  if (0 <=? k)%Z then (m * 10 ^ k * q <=? p)%Z
  else (m * q <=? p * 10 ^ (- k))%Z.

(** Half the smallest subnormal double is [1 / 2 ^ 1075]. *)
Definition denotes_zero (lexeme : string) : bool :=
  let '(m, k) := decimal_of lexeme in decimal_le m k 1 (2 ^ 1075).

(** The largest double is [2 ^ 1024 - 2 ^ 971]; from
    [2 ^ 1024 - 2 ^ 970] on a value rounds to infinity, and [float(n)]
    raises for an [int]. *)
Definition overflow_threshold : Z := (2 ^ 1024 - 2 ^ 970)%Z.

(** [st.number_input] compares with the double [1.797e308], which is
    [js_max_value]; a literal denotes a larger double when its value
    is above the middle between that double and the next one. *)
Definition js_max_value : Z :=
  179699999999999995905583193224901611072291632858140147022196965453183254804882333283158350892704195965340850558876415698952989333541237197049756210812543716071112914325883132079881143218860183987564403694835026082366930530891133544472016095261267320024522778316642355122561812896796181678766044130382320762880%Z.

Definition within_js_bounds (lexeme : string) : bool :=
  let '(m, k) := decimal_of lexeme in decimal_le m k (js_max_value + 2 ^ 970) 1.

(** The blanks that [float()] strips from both ends of an ASCII
    text. *)
Definition is_py_space (c : ascii) : bool :=
  let n := nat_of_ascii c in ((9 <=? n)%nat && (n <=? 13)%nat) || (n =? 32)%nat.

Fixpoint lstrip (s : string) : string :=
  match s with
  | String c s' => if is_py_space c then lstrip s' else s
  | EmptyString => s
  end.

Fixpoint rstrip (s : string) : string :=
  match s with
  | String c s' =>
      match rstrip s' with
      | EmptyString => if is_py_space c then EmptyString else String c EmptyString
      | rest => String c rest
      end
  | EmptyString => s
  end.

Definition lower (c : ascii) : ascii :=
  let n := nat_of_ascii c in
  if (65 <=? n)%nat && (n <=? 90)%nat then ascii_of_nat (n + 32) else c.

Fixpoint lower_str (s : string) : string :=
  match s with
  | String c s' => String (lower c) (lower_str s')
  | EmptyString => EmptyString
  end.

(** After a digit: further digits, each of which one underscore may
    precede.  The digits are returned without the underscores. *)
Fixpoint more_digits (s : string) : string * string :=
  match s with
  | String c s' =>
      if is_digit c then
        let '(ds, rest) := more_digits s' in (String c ds, rest)
      else if ascii_eqb c "_" then
        match s' with
        | String d s'' =>
            if is_digit d then
              let '(ds, rest) := more_digits s'' in (String d ds, rest)
            else ("", s)
        | EmptyString => ("", s)
        end
      else ("", s)
  | EmptyString => ("", s)
  end.

Definition digit_part (s : string) : option (string * string) :=
  match s with
  | String c s' =>
      if is_digit c then
        let '(ds, rest) := more_digits s' in Some (String c ds, rest)
      else None
  | EmptyString => None
  end.

(** digits with an optional point and fraction, or a point and a
    fraction *)
Definition point_number (s : string) : option (string * string) :=
  match digit_part s with
  | Some (int_part, rest) =>
      match rest with
      | String c rest' =>
          if ascii_eqb c "." then
            match digit_part rest' with
            | Some (frac_part, rest'') => Some (int_part +:+ "." +:+ frac_part, rest'')
            | None => Some (int_part +:+ ".", rest')
            end
          else Some (int_part, rest)
      | EmptyString => Some (int_part, rest)
      end
  | None =>
      match s with
      | String c rest' =>
          if ascii_eqb c "." then
            match digit_part rest' with
            | Some (frac_part, rest'') => Some ("." +:+ frac_part, rest'')
            | None => None
            end
          else None
      | EmptyString => None
      end
  end.

(** the exponent, when the text goes on with one *)
Definition exponent_part (s : string) : option (string * string) :=
  match s with
  | String c s' =>
      if ascii_eqb c "e" || ascii_eqb c "E" then
        match s' with
        | String g s'' =>
            if ascii_eqb g "-" || ascii_eqb g "+" then
              match digit_part s'' with
              | Some (ds, rest) => Some (String c (String g ds), rest)
              | None => None
              end
            else
              match digit_part s' with
              | Some (ds, rest) => Some (String c ds, rest)
              | None => None
              end
        | EmptyString => None
        end
      else Some ("", s)
  | EmptyString => Some ("", s)
  end.

(** The literal of a number that [float()] takes, underscores
    removed. *)
Definition float_number (s : string) : option string :=
  match point_number s with
  | Some (number, rest) =>
      match exponent_part rest with
      | Some (exponent, EmptyString) => Some (number +:+ exponent)
      | _ => None
      end
  | None => None
  end.

(** [float(s)] for a [str] of ASCII characters.  The message of the
    [ValueError] goes on with the [repr] of the text, which is left
    out. *)
Definition float_of_ascii (s : string) : result pyfloat :=
  let stripped := rstrip (lstrip s) in
  let '(negative, body) :=
    match stripped with
    | String c s' =>
        if ascii_eqb c "-" then (true, s')
        else if ascii_eqb c "+" then (false, s')
        else (false, stripped)
    | EmptyString => (false, stripped)
    end in
  let name := lower_str body in
  if String.eqb name "inf" || String.eqb name "infinity" then
    Return (if negative then FloatNegInf else FloatInf)
  else if String.eqb name "nan" then Return FloatNaN
  else
    match float_number body with
    | Some literal => Return (FloatOf ((if negative then "-" else "") +:+ literal))
    | None => Raise (Exn ValueError "could not convert string to float")
    end.

(** The float operations on literals.  An [int] becomes its decimal
    literal.  [NaN] compares false with both bounds of the number
    input, so it is within them; the two infinities are not. *)
Definition literal_floats : float_ops :=
  {| float_is_zero x :=
       match x with
       | FloatOf lexeme => denotes_zero lexeme
       | _ => false
       end;
     float_of_int n :=
       if (overflow_threshold <=? Z.abs n)%Z
       then Raise (Exn OverflowError "int too large to convert to float")
       else Return (FloatOf (pretty n +:+ ".0"));
     float_of_str := float_of_ascii;
     float_in_js_bounds x :=
       match x with
       | FloatOf lexeme => within_js_bounds lexeme
       | FloatNaN => true
       | FloatInf | FloatNegInf => false
       end |}.

(** The values on which [in] raises: [None], [bool], [int], [float]. *)
Definition not_a_container (v : value) : Prop :=
  match v with
  | PyNone | PyBool _ | PyInt _ | PyFloat _ => True
  | _ => False
  end.

(** ** Reruns of the script *)

(** What changes the session from one run of the script to the next:
    the Analyze handler has received a result, or the right column
    ran, with or without a submit. *)
Inductive rerun : Type :=
  | AnalysisDone (ai_data : value)
  | PanelRun (submitted : option (string * form_values)).

Definition rerun_step (F : float_ops) (st : session_state) (r : rerun)
  : session_state :=
  match r with
  | AnalysisDone ai_data => step st (Analyzed ai_data)
  | PanelRun submitted =>
      match verification_panel F submitted st with
      | Done (st', _, _) => st'
      | Failed _ => st
      end
  end.

Definition reruns (F : float_ops) (rs : list rerun) (st : session_state)
  : session_state :=
  fold_left (rerun_step F) rs st.

(** The analyses of a sequence of reruns whose result the handler
    stages. *)
Definition is_staged (r : rerun) : bool :=
  match r with
  | AnalysisDone ai_data =>
      match py_in "error" ai_data with
      | Return false => true
      | _ => false
      end
  | PanelRun _ => false
  end.

(** ** [base64.b64encode] and the image encoder *)

Module base64.

(** Six bits, the most significant first. *)
Definition sextet : Type := (bool * bool * bool * bool * bool * bool)%type.

Definition alphabet : string :=
  "ABCDEFGHIJKLMNOPQRSTUVWXYZabcdefghijklmnopqrstuvwxyz0123456789+/".

Definition bit (b : bool) : nat := if b then 1 else 0.

Definition sextet_value (s : sextet) : nat :=
  let '(b5, b4, b3, b2, b1, b0) := s in
  (32 * bit b5 + 16 * bit b4 + 8 * bit b3 + 4 * bit b2 + 2 * bit b1 + bit b0)%nat.

Definition sextet_of_value (n : nat) : sextet :=
  (Nat.testbit n 5, Nat.testbit n 4, Nat.testbit n 3,
   Nat.testbit n 2, Nat.testbit n 1, Nat.testbit n 0).

Definition char_of (s : sextet) : ascii :=
  match String.get (sextet_value s) alphabet with
  | Some c => c
  | None => "="%char
  end.

Definition sextet_of (c : ascii) : option sextet :=
  sextet_of_value <$> find_first c alphabet.

(** The bits of one, two or three bytes, cut into sextets. *)
Definition first_sextet (a : ascii) : sextet :=
  let 'Ascii a0 a1 a2 a3 a4 a5 a6 a7 := a in (a7, a6, a5, a4, a3, a2).

Definition second_sextet (a b : ascii) : sextet :=
  let 'Ascii a0 a1 a2 a3 a4 a5 a6 a7 := a in
  let 'Ascii b0 b1 b2 b3 b4 b5 b6 b7 := b in (a1, a0, b7, b6, b5, b4).

Definition third_sextet (b c : ascii) : sextet :=
  let 'Ascii b0 b1 b2 b3 b4 b5 b6 b7 := b in
  let 'Ascii c0 c1 c2 c3 c4 c5 c6 c7 := c in (b3, b2, b1, b0, c7, c6).

Definition fourth_sextet (c : ascii) : sextet :=
  let 'Ascii c0 c1 c2 c3 c4 c5 c6 c7 := c in (c5, c4, c3, c2, c1, c0).

Definition zero_byte : ascii := Ascii false false false false false false false false.

Fixpoint encode (data : list ascii) : string :=
  match data with
  | [] => EmptyString
  | [a] =>
      String (char_of (first_sextet a))
        (String (char_of (second_sextet a zero_byte)) "==")
  | [a; b] =>
      String (char_of (first_sextet a))
        (String (char_of (second_sextet a b))
           (String (char_of (third_sextet b zero_byte)) "="))
  | a :: b :: c :: rest =>
      String (char_of (first_sextet a))
        (String (char_of (second_sextet a b))
           (String (char_of (third_sextet b c))
              (String (char_of (fourth_sextet c)) (encode rest))))
  end.

(** [base64.b64encode(data).decode('utf-8')] *)
Definition b64encode (data : list Byte.byte) : string :=
  encode (map ascii_of_byte data).

(** The bytes that sextets spell. *)
Definition first_byte (s t : sextet) : ascii :=
  let '(a7, a6, a5, a4, a3, a2) := s in
  let '(a1, a0, _, _, _, _) := t in Ascii a0 a1 a2 a3 a4 a5 a6 a7.

Definition second_byte (t u : sextet) : ascii :=
  let '(_, _, b7, b6, b5, b4) := t in
  let '(b3, b2, b1, b0, _, _) := u in Ascii b0 b1 b2 b3 b4 b5 b6 b7.

Definition third_byte (u v : sextet) : ascii :=
  let '(_, _, _, _, c7, c6) := u in
  let '(c5, c4, c3, c2, c1, c0) := v in Ascii c0 c1 c2 c3 c4 c5 c6 c7.

Definition is_pad (c : ascii) : bool := ascii_eqb c "=".

(** The decoder of the receiving side: groups of four characters of
    the alphabet, the last group padded with one or two [=]. *)
Fixpoint decode (text : string) : option (list ascii) :=
  match text with
  | EmptyString => Some []
  | String c1 (String c2 (String c3 (String c4 rest))) =>
      match sextet_of c1, sextet_of c2 with
      | Some s, Some t =>
          if is_pad c3 then
            match rest with
            | EmptyString => if is_pad c4 then Some [first_byte s t] else None
            | String _ _ => None
            end
          else
            match sextet_of c3 with
            | Some u =>
                if is_pad c4 then
                  match rest with
                  | EmptyString => Some [first_byte s t; second_byte t u]
                  | String _ _ => None
                  end
                else
                  match sextet_of c4 with
                  | Some v =>
                      match decode rest with
                      | Some tail =>
                          Some (first_byte s t :: second_byte t u :: third_byte u v :: tail)
                      | None => None
                      end
                  | None => None
                  end
            | None => None
            end
      | _, _ => None
      end
  | _ => None
  end.

Definition b64decode (text : string) : option (list Byte.byte) :=
  map byte_of_ascii <$> decode text.

(** A character that [b64encode] can write. *)
Definition is_base64_char (c : ascii) : bool :=
  is_pad c || match find_first c alphabet with Some _ => true | None => false end.

End base64.

Fixpoint all_chars (p : ascii -> bool) (s : string) : bool :=
  match s with
  | EmptyString => true
  | String c s' => p c && all_chars p s'
  end.

(** The image library is not part of the program: the encoder is
    written over any type of images with a [thumbnail] and a [save]
    that return or fail.  [thumbnail] shrinks the image it is given;
    the shrunk image is its result here.  The module [PIL] below gives
    the two calls as Pillow has them. *)
Section Encoder.

Variable image : Type.
Variable pil_error : Type.
Variable thumbnail : image -> nat * nat -> pil_error + image.
Variable save : image -> string -> nat -> pil_error + list Byte.byte.

Definition encode_image_to_base64 (img : image) : pil_error + string :=
  let max_size := (800, 800)%nat in
  match thumbnail img max_size with
  | inl e => inl e
  | inr small =>
      match save small "JPEG" 85%nat with
      | inl e => inl e
      | inr buffered => inr (base64.b64encode buffered)
      end
  end.

End Encoder.

(** A stand-in for the image library in the examples: an image is the
    bytes of its file, [thumbnail] leaves it as it is and [save] writes
    those bytes, unless the image is empty. *)
Definition stored_thumbnail (img : list Byte.byte) (size : nat * nat)
  : string + list Byte.byte := inr img.

Definition stored_save (img : list Byte.byte) (format : string) (quality : nat)
  : string + list Byte.byte :=
  match img with
  | [] => inl "cannot write empty image as JPEG"
  | _ :: _ => inr img
  end.

(** ** The image library: [Image.thumbnail] and the JPEG writer

    Pillow is not part of the program.  What follows is what its
    documentation and its source say about the two calls of the
    encoder, as far as the mode and the size of an image go; the
    pixels and the bytes of a file are left to a [codec]. *)

Module PIL.

(** What the two calls can raise: an [OSError], and the exception of a
    thumbnail box with a side of 0 (a [ZeroDivisionError] or a
    [ValueError], by the side and the mode), which the encoder never
    asks for. *)
Inductive error : Type :=
  | OSError (description : string)
  | EmptyBox.

(** An image that has been opened: its mode, its width and its height
    in pixels, both at least 1, and its pixels. *)
Record image (raster : Type) : Type := Image {
  mode : string;
  width : positive;
  height : positive;
  pixels : raster
}.
Arguments Image {raster} mode width height pixels.
Arguments mode {raster} i.
Arguments width {raster} i.
Arguments height {raster} i.
Arguments pixels {raster} i.

(** What is left to the library: which of the two whole numbers
    around the exact scaled side [thumbnail] takes for an image of a
    given width and height (it compares aspect ratios in floating
    point), the pixels of a resized image, the bytes the JPEG writer
    produces for an image in a mode it writes, the writers of the
    other formats, and the size a decoder reads from the bytes of a
    JPEG file. *)
Record codec (raster : Type) : Type := Codec {
  rounds_up : positive -> positive -> bool;
  resample : image raster -> positive * positive -> raster;
  jpeg_encode : image raster -> nat -> error + list Byte.byte;
  other_format : string -> image raster -> nat -> error + list Byte.byte;
  jpeg_size : list Byte.byte -> option (positive * positive)
}.
Arguments rounds_up {raster} c.
Arguments resample {raster} c.
Arguments jpeg_encode {raster} c.
Arguments other_format {raster} c.
Arguments jpeg_size {raster} c.

(** [round_aspect]: the floor or the ceiling of [num / den], and at
    least 1. *)
Definition round_aspect (num den : positive) (up : bool) : positive :=
  let q := (Z.pos num / Z.pos den)%Z in
  let n := if up && negb (Z.pos num mod Z.pos den =? 0)%Z then (q + 1)%Z else q in
  Z.to_pos (Z.max n 1).

(** [preserve_aspect_ratio] for the box [x] by [y] and an image of
    [w] by [h]: nothing to do when the image fits the box; otherwise
    the side that the aspect ratio [w / h] leaves short of the box is
    scaled, [x / y >= w / h] being [y * w <= x * h]. *)
Definition preserve_aspect_ratio (up : bool) (x y w h : positive)
  : option (positive * positive) :=
  if (w <=? x)%positive && (h <=? y)%positive then None
  else if (y * w <=? x * h)%positive
       then Some (round_aspect (y * w) h up, y)
       else Some (x, round_aspect (x * h) w up).

(** [image.thumbnail(size)]: the image itself when it fits the box,
    and otherwise the image resized to the size that preserves its
    aspect ratio, in the same mode. *)
Definition thumbnail {raster : Type} (c : codec raster) (img : image raster)
    (size : nat * nat) : error + image raster :=
  match size with
  | (S x, S y) =>
      match preserve_aspect_ratio (rounds_up c (width img) (height img))
              (Pos.of_succ_nat x) (Pos.of_succ_nat y) (width img) (height img) with
      | None => inr img
      | Some final_size =>
          inr {| mode := mode img;
                 width := fst final_size;
                 height := snd final_size;
                 pixels := resample c img final_size |}
      end
  | _ => inl EmptyBox
  end.

(** The modes the JPEG writer takes. *)
Definition jpeg_modes : list string := ["1"; "L"; "RGB"; "RGBX"; "CMYK"; "YCbCr"].

Definition jpeg_writes (m : string) : bool := existsb (String.eqb m) jpeg_modes.

(** [image.save(buffered, format=..., quality=...)], the bytes written
    to the buffer. *)
Definition save {raster : Type} (c : codec raster) (img : image raster)
    (format : string) (quality : nat) : error + list Byte.byte :=
  if String.eqb format "JPEG" then
    if jpeg_writes (mode img) then jpeg_encode c img quality
    else inl (OSError ("cannot write mode " +:+ mode img +:+ " as JPEG"))
  else other_format c format img quality.

(** What the theorems ask of the JPEG codec: an image in a mode the
    writer takes, of sides up to 65500 pixels, the most a JPEG file
    holds, is written, and a decoder reads its width and height back
    from the bytes. *)
Definition jpeg_keeps_size {raster : Type} (c : codec raster) : Prop :=
  forall (img : image raster) (quality : nat),
    jpeg_writes (mode img) = true ->
    (width img <= 65500)%positive ->
    (height img <= 65500)%positive ->
    exists buffered,
      jpeg_encode c img quality = inr buffered
      /\ jpeg_size c buffered = Some (width img, height img).

End PIL.

(** A stand-in for the codec in the examples: an image has no pixels,
    and the file that is written for it holds its width and its height
    in unary, a byte for each pixel of a side and a zero byte between
    the two. *)
Fixpoint count_ones (data : list Byte.byte) : nat * list Byte.byte :=
  match data with
  | Byte.x01 :: rest => let '(n, rest') := count_ones rest in (S n, rest')
  | _ => (0%nat, data)
  end.

Definition unary_size (data : list Byte.byte) : option (positive * positive) :=
  match count_ones data with
  | (S w, Byte.x00 :: rest) =>
      match count_ones rest with
      | (S h, []) => Some (Pos.of_succ_nat w, Pos.of_succ_nat h)
      | _ => None
      end
  | _ => None
  end.

Definition unary_codec (up : bool) : PIL.codec unit :=
  {| PIL.rounds_up _ _ := up;
     PIL.resample _ _ := tt;
     PIL.jpeg_encode img _ :=
       inr (repeat Byte.x01 (Pos.to_nat (PIL.width img))
              ++ Byte.x00 :: repeat Byte.x01 (Pos.to_nat (PIL.height img)))%list;
     PIL.other_format _ _ _ := inl (PIL.OSError "format not available");
     PIL.jpeg_size := unary_size |}.

(** * Properties *)

(** ** The brace search is the span from the first [{] to the last [}] *)

Lemma ascii_eqb_eq (a b : ascii) : ascii_eqb a b = true <-> a = b.
Proof. unfold ascii_eqb. apply Ascii.eqb_eq. Qed.

Lemma match_any_then_rbrace_last (s : string) :
  re.match_any_then_rbrace s =
  match find_last "}" s with
  | Some j => Some (String.substring 0 (S j) s)
  | None => None
  end.
Proof.
  induction s as [|c s IH]; [reflexivity|].
  cbn [re.match_any_then_rbrace find_last]. rewrite IH.
  destruct (find_last "}" s) as [j|]; [reflexivity|].
  destruct (ascii_eqb c "}"); [|reflexivity].
  destruct s; reflexivity.
Qed.

Lemma search_braces_no_rbrace (s : string) :
  find_last "}" s = None -> re.search_braces s = None.
Proof.
  induction s as [|c s IH]; [reflexivity|].
  cbn [re.search_braces find_last].
  destruct (find_last "}" s) as [j|] eqn:Hlast; [discriminate|].
  intros _. rewrite match_any_then_rbrace_last, Hlast.
  destruct (ascii_eqb c "{"); apply IH; reflexivity.
Qed.

Lemma search_braces_span (text : string) :
  re.search_braces text = brace_span text.
Proof.
  unfold brace_span.
  induction text as [|c s IH]; [reflexivity|].
  cbn [re.search_braces find_first find_last].
  destruct (ascii_eqb c "{") eqn:Hopen.
  - rewrite match_any_then_rbrace_last.
    destruct (find_last "}" s) as [j|] eqn:Hlast.
    + replace (S j - 0 + 1)%nat with (S (S j)) by lia. reflexivity.
    + apply ascii_eqb_eq in Hopen. subst c.
      change (ascii_eqb "{" "}") with false. cbn iota.
      apply search_braces_no_rbrace. assumption.
  - rewrite IH. destruct (find_first "{" s) as [i|]; cbn [fmap option_fmap option_map].
    + destruct (find_last "}" s) as [j|].
      * change (S i <? S j)%nat with (i <? j)%nat.
        destruct (i <? j)%nat; [|reflexivity].
        replace (S j - S i + 1)%nat with (j - i + 1)%nat by lia.
        destruct (j - i + 1)%nat eqn:E; [lia|]. reflexivity.
      * destruct (ascii_eqb c "}"); reflexivity.
    + reflexivity.
Qed.

(** ** The scanner consumes its input and never runs out of depth *)

Ltac break_match_in H :=
  match type of H with
  | context [match ?x with _ => _ end] => destruct x eqn:?
  end.

Lemma skip_ws_length (s : string) :
  (String.length (json.skip_ws s) <= String.length s)%nat.
Proof.
  induction s as [|c s IH]; simpl; [lia|].
  destruct (is_ws c); simpl; lia.
Qed.

Lemma cons_str_Some (prefix : string) r body rest :
  json.cons_str prefix r = Some (body, rest) ->
  exists body', r = Some (body', rest).
Proof.
  destruct r as [[b r']|]; simpl; intros H; [|discriminate].
  injection H as _ ->. eauto.
Qed.

Lemma scanstring_length (s str rest : string) :
  json.scanstring s = Some (str, rest) ->
  (String.length rest < String.length s)%nat.
Proof.
  assert (Hle : (String.length s <= String.length s)%nat) by lia.
  revert Hle. generalize (String.length s) at 2 as n. intros n.
  revert s str rest.
  induction n as [|n IH]; intros s str rest Hle H.
  - destruct s; simpl in *; [discriminate|lia].
  - destruct s as [|c s1]; [discriminate|].
    cbn [json.scanstring] in H.
    repeat break_match_in H; subst; try discriminate;
      try (injection H as <- <-; simpl; lia);
      try (apply cons_str_Some in H as [body' H];
           apply IH in H; simpl in *; lia).
Qed.

Lemma span_digits_length (s ds rest : string) :
  json.span_digits s = (ds, rest) ->
  (String.length rest <= String.length s)%nat.
Proof.
  revert ds rest. induction s as [|c s IH]; intros ds rest H; simpl in H.
  - injection H as <- <-. simpl. lia.
  - destruct (is_digit c).
    + destruct (json.span_digits s) as [ds' rest'] eqn:E.
      injection H as <- <-. specialize (IH _ _ eq_refl). simpl. lia.
    + injection H as <- <-. lia.
Qed.

Lemma match_frac_length (s frac rest : string) :
  json.match_frac s = (frac, rest) ->
  (String.length rest <= String.length s)%nat.
Proof.
  destruct s as [|c s]; simpl; intros H.
  - injection H as <- <-. simpl. lia.
  - repeat break_match_in H; injection H as <- <-; simpl; try lia;
      match goal with
      | E : json.span_digits _ = _ |- _ => apply span_digits_length in E; simpl in *; lia
      end.
Qed.

Lemma match_exp_length (s exp rest : string) :
  json.match_exp s = (exp, rest) ->
  (String.length rest <= String.length s)%nat.
Proof.
  destruct s as [|c s]; simpl; intros H.
  - injection H as <- <-. simpl. lia.
  - repeat break_match_in H; injection H as <- <-; simpl; try lia;
      match goal with
      | E : json.span_digits _ = _ |- _ => apply span_digits_length in E; simpl in *; lia
      end.
Qed.

Lemma match_int_digits_length (s ds rest : string) :
  json.match_int_digits s = Some (ds, rest) ->
  (String.length rest <= String.length s)%nat.
Proof.
  unfold json.match_int_digits. destruct s as [|c s]; [discriminate|].
  destruct (ascii_eqb c "0").
  - intros H. injection H as <- <-. simpl. lia.
  - destruct (is_digit c); [|discriminate].
    intros H. apply (span_digits_length (String c s) ds rest). congruence.
Qed.

Lemma match_number_length (s : string) neg ds frac exp rest :
  json.match_number s = Some (neg, ds, frac, exp, rest) ->
  (String.length rest <= String.length s)%nat.
Proof.
  unfold json.match_number.
  assert (Hsign : forall b s0,
             match s with
             | String c s' => if ascii_eqb c "-" then (true, s') else (false, s)
             | EmptyString => (false, s)
             end = (b, s0) -> (String.length s0 <= String.length s)%nat).
  { intros b s0. destruct s as [|c s'].
    - intros H. injection H as <- <-. lia.
    - destruct (ascii_eqb c "-"); intros H; injection H as <- <-; simpl; lia. }
  destruct (match s with
            | String c s' => if ascii_eqb c "-" then (true, s') else (false, s)
            | EmptyString => (false, s)
            end) as [b s0].
  specialize (Hsign _ _ eq_refl).
  destruct (json.match_int_digits s0) as [[ds' s1]|] eqn:Hint; [|discriminate].
  apply match_int_digits_length in Hint.
  destruct (json.match_frac s1) as [frac' s2] eqn:Hfrac.
  apply match_frac_length in Hfrac.
  destruct (json.match_exp s2) as [exp' s3] eqn:Hexp.
  apply match_exp_length in Hexp.
  intros H. injection H as <- <- <- <- <-. lia.
Qed.

Lemma scan_number_length (s : string) v rest :
  json.scan_number s = Some (json.Scanned v rest) ->
  (String.length rest <= String.length s)%nat.
Proof.
  unfold json.scan_number. intros H.
  destruct (json.match_number s) as [[[[[neg ds] frac] exp] rest']|] eqn:E;
    [|discriminate].
  apply match_number_length in E.
  repeat break_match_in H; try discriminate; injection H as <- <-; assumption.
Qed.

Lemma scan_number_not_too_deep (s : string) :
  json.scan_number s <> Some json.TooDeep.
Proof.
  unfold json.scan_number. intros H.
  repeat break_match_in H; discriminate.
Qed.

Lemma strip_prefix_length (word s rest : string) :
  json.strip_prefix word s = Some rest ->
  (String.length rest <= String.length s)%nat.
Proof.
  revert s. induction word as [|a word IH]; intros s H; simpl in H.
  - injection H as <-. lia.
  - destruct s as [|b s]; [discriminate|].
    destruct (ascii_eqb a b); [|discriminate].
    apply IH in H. simpl. lia.
Qed.

Lemma scan_constant_length (s : string) v rest :
  json.scan_constant s = json.Scanned v rest ->
  (String.length rest <= String.length s)%nat.
Proof.
  unfold json.scan_constant. intros H.
  repeat break_match_in H; try discriminate; subst;
    try (injection H as <- <-);
    try match goal with
      | E : json.strip_prefix _ _ = Some _ |- _ =>
          apply strip_prefix_length in E; exact E
      end.
  eapply scan_number_length. eassumption.
Qed.

Lemma scan_constant_not_too_deep (s : string) :
  json.scan_constant s <> json.TooDeep.
Proof.
  unfold json.scan_constant. intros H.
  repeat break_match_in H; try discriminate; subst.
  eapply scan_number_not_too_deep. eassumption.
Qed.

Ltac length_facts :=
  repeat match goal with
    | E : json.scanstring _ = Some _ |- _ => apply scanstring_length in E
    | E : json.scan_constant _ = json.Scanned _ _ |- _ =>
        apply scan_constant_length in E
    | E : json.skip_ws ?s = String _ _ |- _ =>
        let F := fresh "Hws" in
        pose proof (skip_ws_length s) as F; rewrite E in F; clear E
    | |- context [json.skip_ws ?s] =>
        lazymatch goal with
        | _ : (String.length (json.skip_ws s) <= String.length s)%nat |- _ => fail
        | _ => pose proof (skip_ws_length s)
        end
    | _ : context [json.skip_ws ?s] |- _ =>
        lazymatch goal with
        | _ : (String.length (json.skip_ws s) <= String.length s)%nat |- _ => fail
        | _ => pose proof (skip_ws_length s)
        end
    end.

Lemma scan_length (depth : nat) :
  (forall nesting s v rest,
      json.scan_once depth nesting s = json.Scanned v rest ->
      (String.length rest <= String.length s)%nat)
  /\ (forall nesting s l rest,
         json.scan_items depth nesting s = json.Scanned l rest ->
         (String.length rest <= String.length s)%nat)
  /\ (forall nesting s acc d rest,
         json.scan_members depth nesting s acc = json.Scanned d rest ->
         (String.length rest <= String.length s)%nat).
Proof.
  induction depth as [|depth (IHonce & IHitems & IHmembers)].
  - repeat split; intros; discriminate.
  - repeat split.
    + intros nesting s v rest H.
      cbn [json.scan_once] in H.
      repeat break_match_in H; try discriminate; subst;
        try (injection H as <- <-);
        repeat match goal with
          | E : json.scan_items _ _ _ = json.Scanned _ _ |- _ => apply IHitems in E
          | E : json.scan_members _ _ _ _ = json.Scanned _ _ |- _ => apply IHmembers in E
          end;
        length_facts; simpl in *; lia.
    + intros nesting s l rest H.
      cbn [json.scan_items] in H.
      repeat break_match_in H; try discriminate; subst;
        try (injection H as <- <-);
        repeat match goal with
          | E : json.scan_once _ _ _ = json.Scanned _ _ |- _ => apply IHonce in E
          | E : json.scan_items _ _ _ = json.Scanned _ _ |- _ => apply IHitems in E
          end;
        length_facts; simpl in *; lia.
    + intros nesting s acc d rest H.
      cbn [json.scan_members] in H.
      repeat break_match_in H; try discriminate; subst;
        try (injection H as <- <-);
        repeat match goal with
          | E : json.scan_once _ _ _ = json.Scanned _ _ |- _ => apply IHonce in E
          | E : json.scan_members _ _ _ _ = json.Scanned _ _ |- _ => apply IHmembers in E
          end;
        length_facts; simpl in *; lia.
Qed.

Ltac scanned_facts :=
  repeat match goal with
    | E : json.scan_once _ _ _ = json.Scanned _ _ |- _ =>
        apply (proj1 (scan_length _)) in E
    | E : json.scan_items _ _ _ = json.Scanned _ _ |- _ =>
        apply (proj1 (proj2 (scan_length _))) in E
    | E : json.scan_members _ _ _ _ = json.Scanned _ _ |- _ =>
        apply (proj2 (proj2 (scan_length _))) in E
    end.

Lemma scan_depth (depth : nat) :
  (forall nesting s, (2 * String.length s + 1 <= depth)%nat ->
                     json.scan_once depth nesting s <> json.TooDeep)
  /\ (forall nesting s, (2 * String.length s + 2 <= depth)%nat ->
                        json.scan_items depth nesting s <> json.TooDeep)
  /\ (forall nesting s acc, (2 * String.length s + 2 <= depth)%nat ->
                            json.scan_members depth nesting s acc <> json.TooDeep).
Proof.
  induction depth as [|depth (IHonce & IHitems & IHmembers)].
  - repeat split; intros; lia.
  - repeat split.
    + intros nesting s Hd H.
      cbn [json.scan_once] in H.
      repeat break_match_in H; try discriminate; subst; scanned_facts;
        try (eapply scan_constant_not_too_deep; eassumption);
        match goal with
        | E : json.scan_items _ _ _ = json.TooDeep |- _ =>
            revert E; apply IHitems
        | E : json.scan_members _ _ _ _ = json.TooDeep |- _ =>
            revert E; apply IHmembers
        end; length_facts; simpl in *; lia.
    + intros nesting s Hd H.
      cbn [json.scan_items] in H.
      repeat break_match_in H; try discriminate; subst; scanned_facts;
        match goal with
        | E : json.scan_items _ _ _ = json.TooDeep |- _ =>
            revert E; apply IHitems
        | E : json.scan_once _ _ _ = json.TooDeep |- _ =>
            revert E; apply IHonce
        end; length_facts; simpl in *; lia.
    + intros nesting s acc Hd H.
      cbn [json.scan_members] in H.
      repeat break_match_in H; try discriminate; subst; scanned_facts;
        match goal with
        | E : json.scan_members _ _ _ _ = json.TooDeep |- _ =>
            revert E; apply IHmembers
        | E : json.scan_once _ _ _ = json.TooDeep |- _ =>
            revert E; apply IHonce
        end; length_facts; simpl in *; lia.
Qed.

(** An integer literal is refused only when it has more digits than
    the limit, and the digits are part of the text. *)
Lemma span_digits_digits (s ds rest : string) :
  json.span_digits s = (ds, rest) ->
  (String.length ds <= String.length s)%nat.
Proof.
  revert ds rest. induction s as [|c s IH]; intros ds rest H; simpl in H.
  - injection H as <- <-. simpl. lia.
  - destruct (is_digit c).
    + destruct (json.span_digits s) as [ds' rest'] eqn:E.
      injection H as <- <-. specialize (IH _ _ eq_refl). simpl. lia.
    + injection H as <- <-. simpl. lia.
Qed.

Lemma match_number_digits (s : string) neg ds frac exp rest :
  json.match_number s = Some (neg, ds, frac, exp, rest) ->
  (String.length ds <= String.length s)%nat.
Proof.
  unfold json.match_number.
  assert (Hsign : forall b s0,
             match s with
             | String c s' => if ascii_eqb c "-" then (true, s') else (false, s)
             | EmptyString => (false, s)
             end = (b, s0) -> (String.length s0 <= String.length s)%nat).
  { intros b s0. destruct s as [|c s'].
    - intros H. injection H as <- <-. lia.
    - destruct (ascii_eqb c "-"); intros H; injection H as <- <-; simpl; lia. }
  destruct (match s with
            | String c s' => if ascii_eqb c "-" then (true, s') else (false, s)
            | EmptyString => (false, s)
            end) as [b s0].
  specialize (Hsign _ _ eq_refl).
  destruct (json.match_int_digits s0) as [[ds' s1]|] eqn:Hint; [|discriminate].
  destruct (json.match_frac s1) as [frac' s2].
  destruct (json.match_exp s2) as [exp' s3].
  intros H. injection H as <- <- <- <- <-.
  unfold json.match_int_digits in Hint.
  destruct s0 as [|c s0]; [discriminate|].
  destruct (ascii_eqb c "0").
  - injection Hint as <- <-. simpl in *. lia.
  - destruct (is_digit c); [|discriminate].
    assert (E : json.span_digits (String c s0) = (ds', s1)) by congruence.
    apply span_digits_digits in E. lia.
Qed.

Lemma scan_number_too_long (s : string) digits :
  json.scan_number s = Some (json.IntTooLong digits) ->
  (json.int_max_str_digits < digits <= String.length s)%nat.
Proof.
  unfold json.scan_number. intros H.
  destruct (json.match_number s) as [[[[[neg ds] frac] exp] rest']|] eqn:E;
    [|discriminate].
  apply match_number_digits in E.
  destruct frac; [destruct exp|]; try discriminate.
  destruct (json.int_max_str_digits <? String.length ds)%nat eqn:Hlim;
    [|discriminate].
  injection H as <-. apply Nat.ltb_lt in Hlim. lia.
Qed.

Lemma scan_constant_too_long (s : string) digits :
  json.scan_constant s = json.IntTooLong digits ->
  (json.int_max_str_digits < digits <= String.length s)%nat.
Proof.
  unfold json.scan_constant. intros H.
  repeat break_match_in H; try discriminate; subst.
  apply scan_number_too_long. assumption.
Qed.

Lemma scan_too_long (depth : nat) :
  (forall nesting s digits,
      json.scan_once depth nesting s = json.IntTooLong digits ->
      (json.int_max_str_digits < digits <= String.length s)%nat)
  /\ (forall nesting s digits,
         json.scan_items depth nesting s = json.IntTooLong digits ->
         (json.int_max_str_digits < digits <= String.length s)%nat)
  /\ (forall nesting s acc digits,
         json.scan_members depth nesting s acc = json.IntTooLong digits ->
         (json.int_max_str_digits < digits <= String.length s)%nat).
Proof.
  induction depth as [|depth (IHonce & IHitems & IHmembers)].
  - split; [|split]; intros; discriminate.
  - split; [|split].
    + intros nesting s digits H.
      cbn [json.scan_once] in H.
      repeat break_match_in H; try discriminate; subst;
        try (injection H as <-); scanned_facts;
        repeat match goal with
          | E : json.scan_constant _ = json.IntTooLong _ |- _ =>
              apply scan_constant_too_long in E
          | E : json.scan_items _ _ _ = json.IntTooLong _ |- _ => apply IHitems in E
          | E : json.scan_members _ _ _ _ = json.IntTooLong _ |- _ =>
              apply IHmembers in E
          end;
        length_facts; simpl in *; lia.
    + intros nesting s digits H.
      cbn [json.scan_items] in H.
      repeat break_match_in H; try discriminate; subst;
        try (injection H as <-); scanned_facts;
        repeat match goal with
          | E : json.scan_once _ _ _ = json.IntTooLong _ |- _ => apply IHonce in E
          | E : json.scan_items _ _ _ = json.IntTooLong _ |- _ => apply IHitems in E
          end;
        length_facts; simpl in *; lia.
    + intros nesting s acc digits H.
      cbn [json.scan_members] in H.
      repeat break_match_in H; try discriminate; subst;
        try (injection H as <-); scanned_facts;
        repeat match goal with
          | E : json.scan_once _ _ _ = json.IntTooLong _ |- _ => apply IHonce in E
          | E : json.scan_members _ _ _ _ = json.IntTooLong _ |- _ =>
              apply IHmembers in E
          end;
        length_facts; simpl in *; lia.
Qed.

(** The scanner gives up on the nesting only when the text opens more
    arrays and objects inside one another than it was given room for;
    the text is then longer than the room. *)
Lemma scan_number_not_too_nested (s : string) (what : string) :
  json.scan_number s <> Some (json.TooNested what).
Proof.
  unfold json.scan_number. intros H.
  repeat break_match_in H; discriminate.
Qed.

Lemma scan_constant_not_too_nested (s : string) (what : string) :
  json.scan_constant s <> json.TooNested what.
Proof.
  unfold json.scan_constant. intros H.
  repeat break_match_in H; try discriminate; subst.
  eapply scan_number_not_too_nested. eassumption.
Qed.

Lemma scan_too_nested (depth : nat) :
  (forall nesting s what,
      json.scan_once depth nesting s = json.TooNested what ->
      (nesting < String.length s)%nat)
  /\ (forall nesting s what,
         json.scan_items depth nesting s = json.TooNested what ->
         (nesting < String.length s)%nat)
  /\ (forall nesting s acc what,
         json.scan_members depth nesting s acc = json.TooNested what ->
         (nesting < String.length s)%nat).
Proof.
  induction depth as [|depth (IHonce & IHitems & IHmembers)].
  - split; [|split]; intros; discriminate.
  - split; [|split].
    + intros nesting s what H.
      cbn [json.scan_once] in H.
      repeat break_match_in H; try discriminate; subst;
        try (injection H as <-); scanned_facts;
        try (exfalso; eapply scan_constant_not_too_nested; eassumption);
        repeat match goal with
          | E : json.scan_items _ _ _ = json.TooNested _ |- _ => apply IHitems in E
          | E : json.scan_members _ _ _ _ = json.TooNested _ |- _ =>
              apply IHmembers in E
          end;
        length_facts; simpl in *; lia.
    + intros nesting s what H.
      cbn [json.scan_items] in H.
      repeat break_match_in H; try discriminate; subst;
        try (injection H as <-); scanned_facts;
        repeat match goal with
          | E : json.scan_once _ _ _ = json.TooNested _ |- _ => apply IHonce in E
          | E : json.scan_items _ _ _ = json.TooNested _ |- _ => apply IHitems in E
          end;
        length_facts; simpl in *; lia.
    + intros nesting s acc what H.
      cbn [json.scan_members] in H.
      repeat break_match_in H; try discriminate; subst;
        try (injection H as <-); scanned_facts;
        repeat match goal with
          | E : json.scan_once _ _ _ = json.TooNested _ |- _ => apply IHonce in E
          | E : json.scan_members _ _ _ _ = json.TooNested _ |- _ =>
              apply IHmembers in E
          end;
        length_facts; simpl in *; lia.
Qed.

(** [json.loads] returns a value, or raises a decode error, or raises
    the [ValueError] of an integer literal with more digits than the
    limit, or raises the [RecursionError] of a nesting deeper than the
    room it was given.  The calls its scanner is given always
    suffice. *)
Lemma loads_within_outcome (nesting : nat) (text : string) :
  (exists v, json.loads_within nesting text = Return v)
  \/ json.loads_within nesting text = Raise json.decode_error
  \/ (exists digits,
        (json.int_max_str_digits < digits <= String.length text)%nat
        /\ json.loads_within nesting text
           = Raise (Exn ValueError (json.int_limit_message digits)))
  \/ (exists what,
        (nesting < String.length text)%nat
        /\ json.loads_within nesting text
           = Raise (Exn RecursionError (json.recursion_message what))).
Proof.
  unfold json.loads_within.
  pose proof (skip_ws_length text) as Hws.
  destruct (json.scan_once (2 * String.length text + 2) nesting (json.skip_ws text))
    as [v rest| |digits|what|] eqn:E.
  - destruct (json.skip_ws rest); [left; eauto|right; left; reflexivity].
  - right; left; reflexivity.
  - right; right; left. exists digits. split; [|reflexivity].
    apply (proj1 (scan_too_long _)) in E. lia.
  - right; right; right. exists what. split; [|reflexivity].
    apply (proj1 (scan_too_nested _)) in E. lia.
  - exfalso. revert E. apply (proj1 (scan_depth _)). lia.
Qed.

(** ** The decoder on some texts *)

Example loads_last_duplicate_wins :
  json.loads (lit "{'a': 1, 'a': 2}") = Return (PyDict {[ "a" := PyInt 2 ]}).
Proof. vm_compute. reflexivity. Qed.

Example loads_nested :
  json.loads (lit " [ {'a': [1, null]}, false, -2.5e3, '\u00e9' ] ")
  = Return (PyList [ PyDict {[ "a" := PyList [PyInt 1; PyNone] ]};
                     PyBool false; PyFloat (FloatOf "-2.5e3");
                     PyStr (utf8 233) ]).
Proof. vm_compute. reflexivity. Qed.

Example loads_rejects :
  json.loads "01" = Raise json.decode_error
  /\ json.loads "[1,]" = Raise json.decode_error
  /\ json.loads (lit "{'a': 1} x") = Raise json.decode_error
  /\ json.loads (lit "{'a': 1") = Raise json.decode_error
  /\ json.loads "" = Raise json.decode_error.
Proof. repeat split; vm_compute; reflexivity. Qed.

(** 4300 digits are accepted, one more is refused. *)
Example loads_integer_limit :
  match json.loads (repeat_char 4300 "1") with
  | Return (PyInt n) => (0 <? n)%Z
  | _ => false
  end = true
  /\ json.loads (repeat_char 4301 "1")
     = Raise (Exn ValueError (json.int_limit_message 4301)).
Proof.
  split; vm_compute; reflexivity.
Qed.

(** ** [extract_json] *)

Lemma extract_json_strict (text : string) (v : value) :
  json.loads text = Return v -> extract_json text = Return v.
Proof. unfold extract_json. intros ->. reflexivity. Qed.

Lemma is_JSONDecodeError_decode_error :
  is_JSONDecodeError json.decode_error = true.
Proof. reflexivity. Qed.

Lemma extract_json_within_limit (text : string) :
  extract_json_within json.nesting_limit text = extract_json text.
Proof. reflexivity. Qed.

(** What [extract_json] does with any text, whatever room the stack
    leaves: the strict result, the result of the span, the failure
    mapping, or the exception that the strict parse let through, which
    is the [ValueError] of a long integer or the [RecursionError] of a
    deep nesting. *)
Lemma extract_json_within_outcome (nesting : nat) (text : string) :
  (exists v, json.loads_within nesting text = Return v
             /\ extract_json_within nesting text = Return v)
  \/ (json.loads_within nesting text = Raise json.decode_error
      /\ ((exists span v,
              brace_span text = Some span
              /\ json.loads_within nesting span = Return v
              /\ extract_json_within nesting text = Return v)
          \/ ((brace_span text = None
               \/ exists span e, brace_span text = Some span
                                 /\ json.loads_within nesting span = Raise e)
              /\ extract_json_within nesting text = Return (parse_failure text))))
  \/ (exists digits,
         (json.int_max_str_digits < digits <= String.length text)%nat
         /\ json.loads_within nesting text
            = Raise (Exn ValueError (json.int_limit_message digits))
         /\ extract_json_within nesting text
            = Raise (Exn ValueError (json.int_limit_message digits)))
  \/ (exists what,
         (nesting < String.length text)%nat
         /\ json.loads_within nesting text
            = Raise (Exn RecursionError (json.recursion_message what))
         /\ extract_json_within nesting text
            = Raise (Exn RecursionError (json.recursion_message what))).
Proof.
  unfold extract_json_within. rewrite search_braces_span.
  destruct (loads_within_outcome nesting text)
    as [[v H]|[H|[(digits & Hd & H)|(what & Hn & H)]]]; rewrite H.
  - left. eauto.
  - right; left. split; [reflexivity|].
    rewrite is_JSONDecodeError_decode_error.
    destruct (brace_span text) as [span|]; [|right; eauto].
    destruct (json.loads_within nesting span) as [v|e] eqn:Hspan.
    + left. eauto.
    + right. split; [right; eauto|reflexivity].
  - right; right; left. exists digits. split; [exact Hd|]. split; reflexivity.
  - right; right; right. exists what. split; [exact Hn|]. split; reflexivity.
Qed.

(** ** The chain *)

Section ChainFacts.

Variable client : client_t.
Variable image_base64 : string.

Local Abbreviation req := (request_for image_base64).

Lemma attempt_log (model_id : string) (log : list request) :
  snd (attempt client image_base64 model_id log) = (log ++ [req model_id])%list.
Proof.
  unfold attempt, io_bind, create, io_lift.
  destruct (client log (request_for image_base64 model_id)) as [c|e];
    [|reflexivity].
  destruct (index0 (choices c)); reflexivity.
Qed.

Lemma attempt_request_raises (model_id : string) (log : list request) (e : exn) :
  client log (req model_id) = Raise e ->
  attempt client image_base64 model_id log = (Raise e, (log ++ [req model_id])%list).
Proof.
  unfold attempt, io_bind, create, io_lift. intros ->. reflexivity.
Qed.

Lemma attempt_request_returns (model_id : string) (log : list request)
    (c : chat_completion) (first : choice) (more : list choice) :
  client log (req model_id) = Return c ->
  choices c = first :: more ->
  attempt client image_base64 model_id log
  = (extract_json (content (message first)), (log ++ [req model_id])%list).
Proof.
  unfold attempt, io_bind, create, io_lift. intros -> ->. reflexivity.
Qed.

Lemma requests_raise_attempts (candidates : list string) :
  forall log errors,
    requests_raise client image_base64 candidates log errors ->
    attempts_raise client image_base64 candidates log errors.
Proof.
  induction candidates as [|m rest IH]; intros log [|e errors]; simpl; try tauto.
  intros [Hreq Hrest]. split; [|apply IH; exact Hrest].
  rewrite (attempt_request_raises _ _ _ Hreq). reflexivity.
Qed.

(** When every attempt raises, the loop runs to its end and the
    result is built from the description of the last error. *)
Lemma try_models_exhausted (candidates : list string) :
  forall last_error log errors,
    attempts_raise client image_base64 candidates log errors ->
    try_models client image_base64 candidates last_error log
    = (Return (all_failed (last_description last_error errors)),
       (log ++ map req candidates)%list).
Proof.
  induction candidates as [|m rest IH]; intros last_error log [|e errors];
    simpl; try tauto.
  - intros _. unfold io_ret. rewrite app_nil_r. reflexivity.
  - intros [Hfirst Hrest].
    pose proof (attempt_log m log) as Hlog.
    destruct (attempt client image_base64 m log) as [r log'].
    simpl in Hfirst, Hlog. subst r log'.
    rewrite (IH _ _ _ Hrest). rewrite <- app_assoc. simpl.
    f_equal. f_equal. f_equal.
    unfold last_description. destruct errors as [|e' errors]; [reflexivity|].
    change (last (e :: e' :: errors)) with (last (e' :: errors)).
    destruct (last (e' :: errors)) eqn:Hl; [reflexivity|].
    apply last_None in Hl. discriminate.
Qed.

(** The first attempt that returns ends the loop with its value; the
    candidates after it are not requested. *)
Lemma try_models_first_return (before : list string) :
  forall model_id after last_error log errors v,
    attempts_raise client image_base64 before log errors ->
    fst (attempt client image_base64 model_id (log ++ map req before)%list) = Return v ->
    try_models client image_base64 (before ++ model_id :: after) last_error log
    = (Return v, (log ++ map req (before ++ [model_id]))%list).
Proof.
  induction before as [|m rest IH]; intros model_id after last_error log errors v.
  - simpl. intros _ Hret. rewrite app_nil_r in Hret.
    pose proof (attempt_log model_id log) as Hlog.
    destruct (attempt client image_base64 model_id log) as [r log'].
    simpl in Hret, Hlog. subst r log'. reflexivity.
  - destruct errors as [|e errors]; simpl; [tauto|].
    intros [Hfirst Hrest] Hret.
    pose proof (attempt_log m log) as Hlog.
    destruct (attempt client image_base64 m log) as [r log'].
    simpl in Hfirst, Hlog. subst r log'.
    rewrite (IH model_id after (str_exn e) _ errors v Hrest).
    + rewrite <- app_assoc. reflexivity.
    + rewrite <- app_assoc. exact Hret.
Qed.

(** Every run is one of the two: some attempt returns after the ones
    before it raised, or all of them raise.  The requests of the run
    are those of the first [k] candidates, in order. *)
Lemma try_models_run (candidates : list string) :
  forall last_error log,
  exists (k : nat) (v : value),
    (k <= length candidates)%nat
    /\ try_models client image_base64 candidates last_error log
       = (Return v, (log ++ map req (take k candidates))%list)
    /\ ((exists errors,
            k = length candidates
            /\ attempts_raise client image_base64 candidates log errors
            /\ v = all_failed (last_description last_error errors))
        \/ (exists before model_id after errors,
               candidates = (before ++ model_id :: after)%list
               /\ k = S (length before)
               /\ attempts_raise client image_base64 before log errors
               /\ fst (attempt client image_base64 model_id
                         (log ++ map req before)%list) = Return v)).
Proof.
  induction candidates as [|m rest IH]; intros last_error log.
  - exists 0%nat, (all_failed last_error). simpl. split; [lia|].
    split; [unfold io_ret; rewrite app_nil_r; reflexivity|].
    left. exists []. simpl. auto.
  - cbn [try_models length].
    pose proof (attempt_log m log) as Hlog.
    destruct (attempt client image_base64 m log) as [[v|e] log'] eqn:Hatt;
      simpl in Hlog; subst log'.
    + exists 1%nat, v. split; [simpl; lia|]. split.
      * destruct rest; reflexivity.
      * right. exists [], m, rest, []. simpl. rewrite app_nil_r, Hatt. auto.
    + destruct (IH (str_exn e) (log ++ [req m])%list)
        as (k & v & Hk & Hrun & Hkind).
      exists (S k), v. split; [simpl; lia|]. split.
      * rewrite Hrun. simpl. rewrite <- app_assoc. reflexivity.
      * destruct Hkind as [(errors & -> & Hall & ->)
                          |(before & model_id & after & errors & -> & -> & Hall & Hret)].
        -- left. exists (e :: errors). cbn [attempts_raise length].
           rewrite Hatt. cbn [fst].
           split; [reflexivity|]. split; [split; [reflexivity|assumption]|].
           unfold last_description. destruct errors as [|e' errors]; [reflexivity|].
           change (last (e :: e' :: errors)) with (last (e' :: errors)).
           destruct (last (e' :: errors)) eqn:Hl; [reflexivity|].
           apply last_None in Hl. discriminate.
        -- right. exists (m :: before), model_id, after, (e :: errors).
           cbn [attempts_raise length]. rewrite Hatt. cbn [fst].
           split; [reflexivity|]. split; [reflexivity|].
           split; [split; [reflexivity|assumption]|].
           rewrite <- app_assoc in Hret. exact Hret.
Qed.

End ChainFacts.

(** ** Strict parse first, then the brace span *)

(** [extract_json] returns what the strict parse of the whole text
    returns; when that parse fails with a decode error it takes the
    span from the first opening brace to the last closing brace and
    parses it, and falls back to the failure mapping when there is no
    span or the span does not parse; any other exception of the strict
    parse leaves the function. *)
Lemma extract_json_strict_then_brace_span (text : string) :
  extract_json text =
  match json.loads text with
  | Return v => Return v
  | Raise e =>
      if is_JSONDecodeError e then
        match brace_span text with
        | Some span =>
            match json.loads span with
            | Return v => Return v
            | Raise _ => Return (parse_failure text)
            end
        | None => Return (parse_failure text)
        end
      else Raise e
  end.
Proof. unfold extract_json. rewrite search_braces_span. reflexivity. Qed.

(** C4: the two texts of the claim are handled as it says: the bare
    object [{"reading": 10, "unit": "bar"}] is parsed directly and the
    same object wrapped in prose is recovered from its span.  But the
    span is not taken whenever the strict parse fails.  On the object
    whose reading is an integer of 4301 digits the strict parse fails
    with the [ValueError] of [int()]; the text has a span from its
    first opening brace to its last closing brace, the whole text; the
    algorithm of the claim would parse it, fail again and end at the
    failure mapping; [extract_json] raises instead, without looking
    for the span.  On every text whose strict parse returns or fails
    with a decode error, [extract_json] does follow the algorithm of
    the claim. *)
Theorem strict_failure_on_long_integer_skips_the_span :
  json.loads long_integer_body
  = Raise (Exn ValueError (json.int_limit_message 4301))
  /\ brace_span long_integer_body = Some long_integer_body
  /\ strict_then_span long_integer_body = parse_failure long_integer_body
  /\ extract_json long_integer_body
     = Raise (Exn ValueError (json.int_limit_message 4301))
  /\ (forall text,
         match json.loads text with
         | Return _ => extract_json text = Return (strict_then_span text)
         | Raise e =>
             if is_JSONDecodeError e
             then extract_json text = Return (strict_then_span text)
             else extract_json text = Raise e
         end)
  /\ extract_json (lit "{'reading': 10, 'unit': 'bar'}")
     = Return (PyDict {[ "reading" := PyInt 10; "unit" := PyStr "bar" ]})
  /\ brace_span (lit "Sure! Here is the result: {'reading': 10, 'unit': 'bar'} Hope that helps.")
     = Some (lit "{'reading': 10, 'unit': 'bar'}")
  /\ extract_json (lit "Sure! Here is the result: {'reading': 10, 'unit': 'bar'} Hope that helps.")
     = Return (PyDict {[ "reading" := PyInt 10; "unit" := PyStr "bar" ]}).
Proof.
  split; [vm_compute; reflexivity|].
  split; [vm_compute; reflexivity|].
  split; [vm_compute; reflexivity|].
  split; [vm_compute; reflexivity|].
  split.
  - intros text. rewrite extract_json_strict_then_brace_span.
    unfold strict_then_span.
    destruct (json.loads text) as [v|e]; [reflexivity|].
    destruct (is_JSONDecodeError e); [|reflexivity].
    destruct (brace_span text) as [span|]; [|reflexivity].
    destruct (json.loads span); reflexivity.
  - repeat split; vm_compute; reflexivity.
Qed.

(** ** A text on which [extract_json] raises *)

(** C2: on the JSON object whose reading is an integer of 4301 digits
    the strict parse raises the [ValueError] of [int()], which is not a
    decode error, so the outer handler lets it through and
    [extract_json] raises.  The handler around the parse of the span
    catches everything: the same object after a stray word yields the
    failure mapping, and so does a text without braces, with the text
    kept under [raw]. *)
Theorem extract_json_raises_on_long_integer :
  extract_json long_integer_body
  = Raise (Exn ValueError
             "Exceeds the limit (4300 digits) for integer string conversion: value has 4301 digits; use sys.set_int_max_str_digits() to increase the limit")
  /\ extract_json ("x " +:+ long_integer_body)
     = Return (parse_failure ("x " +:+ long_integer_body))
  /\ extract_json "I cannot analyze this image."
     = Return (PyDict {[ "error" := PyStr "Failed to parse JSON";
                         "raw" := PyStr "I cannot analyze this image." ]}).
Proof.
  repeat split; vm_compute; reflexivity.
Qed.

(** ** The first completed attempt ends the chain *)

Lemma extract_json_steady_body : extract_json steady_body = Return steady_mapping.
Proof. vm_compute. reflexivity. Qed.

(** C1, as amended: when the attempts on the candidates before
    [model_id] raise, the request for [model_id] returns a completion
    with a first choice, and [extract_json] returns [v] on its text,
    then [analyze_gauge] returns [v], whatever [v] holds, and the
    requests of the run stop with the one for [model_id]: no later
    candidate is requested.  On the steady reading body [extract_json]
    returns exactly its mapping, so that mapping is the result when
    candidate 1 fails and candidate 2 answers with the body. *)
Theorem first_completed_attempt_ends_chain
    (client : client_t) (image_base64 : string) (log : list request)
    (before : list string) (model_id : string) (after : list string)
    (errors : list exn) (c : chat_completion) (first : choice)
    (more : list choice) (v : value) :
  models = (before ++ model_id :: after)%list ->
  attempts_raise client image_base64 before log errors ->
  client (log ++ map (request_for image_base64) before)%list
         (request_for image_base64 model_id) = Return c ->
  choices c = first :: more ->
  extract_json (content (message first)) = Return v ->
  analyze_gauge client image_base64 log
  = (Return v, (log ++ map (request_for image_base64) (before ++ [model_id]))%list)
  /\ extract_json steady_body = Return steady_mapping.
Proof.
  intros Hmodels Hbefore Hreq Hchoices Hjson. split.
  - unfold analyze_gauge. rewrite Hmodels.
    apply (try_models_first_return client image_base64 before
             model_id after "" log errors v Hbefore).
    rewrite (attempt_request_returns _ _ _ _ _ _ _ Hreq Hchoices).
    exact Hjson.
  - exact extract_json_steady_body.
Qed.

(** Candidate 1 fails, candidate 2 answers with the steady reading:
    the result is its mapping and candidate 3 is not requested. *)
Lemma second_candidate_answers :
  analyze_gauge second_answers "" []
  = (Return steady_mapping, map (request_for "") [scout; vision_90b]).
Proof.
  assert (Hreq : second_answers ([] ++ map (request_for "") [scout])%list
                   (request_for "" vision_90b)
                 = Return (completion_of steady_body)) by reflexivity.
  exact (proj1 (first_completed_attempt_ends_chain
                  second_answers "" [] [scout] vision_90b [vision_11b]
                  [Exn ClientError "model unavailable"]
                  (completion_of steady_body)
                  (Choice (ChatMessage steady_body)) [] steady_mapping
                  eq_refl (conj eq_refl I) Hreq eq_refl
                  extract_json_steady_body)).
Defined.

(** C1, as stated, fails: the request for the first candidate returns
    without raising, and the chain still goes on to the second
    candidate, whose mapping is the result.  In the first run the
    completion has no choice, so [choices[0]] raises inside the [try];
    in the second its text is the object with the long integer, on
    which [extract_json] raises. *)
Lemma first_return_does_not_end_chain :
  (no_choice_first [] (request_for "" scout) = Return (ChatCompletion [])
   /\ analyze_gauge no_choice_first "" []
      = (Return steady_mapping, map (request_for "") [scout; vision_90b]))
  /\ (long_integer_first [] (request_for "" scout)
      = Return (completion_of long_integer_body)
      /\ analyze_gauge long_integer_first "" []
         = (Return steady_mapping, map (request_for "") [scout; vision_90b])).
Proof.
  split; (split; [reflexivity|vm_compute; reflexivity]).
Qed.

(** ** Every candidate fails *)

(** C3: when the request for every candidate raises, [analyze_gauge]
    returns one mapping whose only entry is [error], and its text is
    the fixed prefix followed by the description of the last failure.
    Nothing of the earlier failures enters the result: another run in
    which all requests raise and the last description is the same gives
    the same mapping. *)
Theorem all_requests_raise_last_error
    (client : client_t) (image_base64 : string) (log : list request)
    (errors : list exn) :
  requests_raise client image_base64 models log errors ->
  exists e_last,
    last errors = Some e_last
    /\ analyze_gauge client image_base64 log
       = (Return (PyDict {[ "error" :=
                              PyStr ("All models failed. Last error: " +:+ str_exn e_last) ]}),
          (log ++ map (request_for image_base64) models)%list)
    /\ forall client' image' log' errors' e_last',
         requests_raise client' image' models log' errors' ->
         last errors' = Some e_last' ->
         str_exn e_last' = str_exn e_last ->
         fst (analyze_gauge client' image' log')
         = fst (analyze_gauge client image_base64 log).
Proof.
  intros Hall.
  assert (Hlast : forall cl im lg errs,
             requests_raise cl im models lg errs ->
             exists e, last errs = Some e
                       /\ analyze_gauge cl im lg
                          = (Return (all_failed (str_exn e)),
                             (lg ++ map (request_for im) models)%list)).
  { intros cl im lg errs H.
    pose proof (try_models_exhausted cl im models "" lg errs
                  (requests_raise_attempts cl im models lg errs H)) as Hrun.
    destruct errs as [|e1 [|e2 [|e3 [|e4 errs]]]]; simpl in H; try tauto.
    exists e3. split; [reflexivity|]. exact Hrun. }
  destruct (Hlast _ _ _ _ Hall) as (e_last & He & Hrun).
  exists e_last. split; [exact He|]. split; [exact Hrun|].
  intros client' image' log' errors' e_last' Hall' He' Hsame.
  destruct (Hlast _ _ _ _ Hall') as (e' & He'' & Hrun').
  rewrite Hrun, Hrun'. simpl. rewrite He' in He''. injection He'' as <-.
  rewrite Hsame. reflexivity.
Qed.

(** All three candidates are down: the message ends with the
    description of the third failure. *)
Lemma all_down_last_error :
  exists e_last,
    last [Exn ClientError "rate limit reached";
          Exn ClientError "model decommissioned";
          Exn ClientError "connection error"] = Some e_last
    /\ analyze_gauge all_down "" []
       = (Return (PyDict {[ "error" :=
                              PyStr ("All models failed. Last error: " +:+ str_exn e_last) ]}),
          ([] ++ map (request_for "") models)%list)
    /\ forall client' image' log' errors' e_last',
         requests_raise client' image' models log' errors' ->
         last errors' = Some e_last' ->
         str_exn e_last' = str_exn e_last ->
         fst (analyze_gauge client' image' log')
         = fst (analyze_gauge all_down "" []).
Proof.
  apply (all_requests_raise_last_error all_down "" []).
  repeat split.
Defined.

(** ** At most one attempt per candidate *)

(** C8: a run of [analyze_gauge] returns, and its requests are those
    for the first [k] of the three candidates, in the configured order,
    each once: either [k] is 3 and every attempt raised, or the run
    stopped at the first attempt that returned, right after the
    attempts before it raised. *)
Theorem at_most_one_attempt_per_candidate
    (client : client_t) (image_base64 : string) (log : list request) :
  exists (k : nat) (v : value),
    analyze_gauge client image_base64 log
    = (Return v, (log ++ map (request_for image_base64) (take k models))%list)
    /\ (k <= length models)%nat
    /\ length models = 3%nat
    /\ NoDup (take k models)
    /\ ((exists errors,
            k = length models
            /\ attempts_raise client image_base64 models log errors
            /\ length errors = length models)
        \/ (exists before model_id after errors,
               models = (before ++ model_id :: after)%list
               /\ k = S (length before)
               /\ attempts_raise client image_base64 before log errors
               /\ fst (attempt client image_base64 model_id
                         (log ++ map (request_for image_base64) before)%list)
                  = Return v)).
Proof.
  destruct (try_models_run client image_base64 models "" log)
    as (k & v & Hk & Hrun & Hkind).
  exists k, v. split; [exact Hrun|]. split; [exact Hk|].
  split; [reflexivity|]. split.
  - apply (sublist_NoDup _ models); [|apply sublist_take].
    apply (bool_decide_unpack _). vm_compute. exact I.
  - destruct Hkind as [(errors & Hk' & Hall & _)|Hstop].
    + left. exists errors. split; [exact Hk'|]. split; [exact Hall|].
      clear -Hall. revert Hall. generalize log. generalize models.
      intros ms. revert errors.
      induction ms as [|m ms IH]; intros [|e errors] lg; simpl; try tauto.
      intros [_ H]. f_equal. eapply IH. exact H.
    + right. exact Hstop.
Qed.

(** ** The two failure mappings *)

Lemma all_failed_keys (last_error : string) :
  exists d, all_failed last_error = PyDict d
            /\ dom d = {["error"]} /\ d !! "raw" = None.
Proof.
  eexists. split; [reflexivity|]. split.
  - apply dom_singleton_L.
  - apply lookup_singleton_ne. discriminate.
Qed.

Lemma parse_failure_keys (text : string) :
  exists d, parse_failure text = PyDict d
            /\ d !! "error" = Some (PyStr "Failed to parse JSON")
            /\ d !! "raw" = Some (PyStr text).
Proof.
  eexists. split; [reflexivity|]. split.
  - apply lookup_insert_eq.
  - rewrite lookup_insert_ne by discriminate. apply lookup_singleton_eq.
Qed.

Lemma extract_json_failure (text : string) :
  json.loads text = Raise json.decode_error ->
  (brace_span text = None
   \/ exists span e, brace_span text = Some span /\ json.loads span = Raise e) ->
  extract_json text = Return (parse_failure text).
Proof.
  intros Hstrict Hspan. unfold extract_json.
  rewrite Hstrict, is_JSONDecodeError_decode_error, search_braces_span.
  destruct Hspan as [->|(span & e & -> & ->)]; reflexivity.
Qed.

(** C10: a run in which every candidate fails returns a mapping whose
    only key is [error], with no [raw]; a run that ends with a text
    that neither parses strictly nor through its span returns the
    failure mapping of [extract_json], which holds both [error] and
    [raw], the latter with the text.  The two mappings differ, and
    [raw] tells them apart. *)
Theorem failure_kinds_differ_by_raw
    (client : client_t) (image_base64 : string) (log : list request)
    (errors : list exn)
    (client' : client_t) (image' : string) (log' : list request)
    (before : list string) (model_id : string) (after : list string)
    (errors' : list exn) (c : chat_completion) (first : choice)
    (more : list choice) :
  attempts_raise client image_base64 models log errors ->
  models = (before ++ model_id :: after)%list ->
  attempts_raise client' image' before log' errors' ->
  client' (log' ++ map (request_for image') before)%list
          (request_for image' model_id) = Return c ->
  choices c = first :: more ->
  json.loads (content (message first)) = Raise json.decode_error ->
  (brace_span (content (message first)) = None
   \/ exists span e, brace_span (content (message first)) = Some span
                     /\ json.loads span = Raise e) ->
  exists exhausted failed : gmap string value,
    fst (analyze_gauge client image_base64 log) = Return (PyDict exhausted)
    /\ dom exhausted = {["error"]}
    /\ exhausted !! "raw" = None
    /\ fst (analyze_gauge client' image' log') = Return (PyDict failed)
    /\ is_Some (failed !! "error")
    /\ failed !! "raw" = Some (PyStr (content (message first)))
    /\ exhausted <> failed.
Proof.
  intros Hall Hmodels Hbefore Hreq Hchoices Hstrict Hspan.
  destruct (all_failed_keys (last_description "" errors))
    as (exhausted & Hex & Hdom & Hraw).
  destruct (parse_failure_keys (content (message first)))
    as (failed & Hfl & Herr & Hraw').
  exists exhausted, failed.
  split.
  { unfold analyze_gauge.
    rewrite (try_models_exhausted client image_base64 models "" log errors Hall).
    simpl. rewrite Hex. reflexivity. }
  split; [exact Hdom|]. split; [exact Hraw|]. split.
  { unfold analyze_gauge. rewrite Hmodels.
    rewrite (try_models_first_return client' image' before model_id after ""
               log' errors' (parse_failure (content (message first))) Hbefore).
    - simpl. rewrite Hfl. reflexivity.
    - rewrite (attempt_request_returns _ _ _ _ _ _ _ Hreq Hchoices).
      simpl. apply extract_json_failure; assumption. }
  split; [rewrite Herr; eauto|]. split; [exact Hraw'|].
  intros Heq. rewrite Heq, Hraw' in Hraw. discriminate.
Qed.

(** All candidates down against a first candidate that answers in
    prose. *)
Lemma all_down_versus_prose :
  exists exhausted failed : gmap string value,
    fst (analyze_gauge all_down "" []) = Return (PyDict exhausted)
    /\ dom exhausted = {["error"]}
    /\ exhausted !! "raw" = None
    /\ fst (analyze_gauge (always_answers "I cannot analyze this image.") "" [])
       = Return (PyDict failed)
    /\ is_Some (failed !! "error")
    /\ failed !! "raw" = Some (PyStr "I cannot analyze this image.")
    /\ exhausted <> failed.
Proof.
  apply (failure_kinds_differ_by_raw
           all_down "" []
           [Exn ClientError "rate limit reached";
            Exn ClientError "model decommissioned";
            Exn ClientError "connection error"]
           (always_answers "I cannot analyze this image.") "" []
           [] scout [vision_90b; vision_11b] []
           (completion_of "I cannot analyze this image.")
           (Choice (ChatMessage "I cannot analyze this image.")) []).
  - repeat split.
  - reflexivity.
  - exact I.
  - reflexivity.
  - reflexivity.
  - vm_compute. reflexivity.
  - left. vm_compute. reflexivity.
Defined.

(** ** Staging *)

Lemma handle_analysis_cases (ai_data : value) (st st' : session_state)
    (events : list ui_event) :
  handle_analysis ai_data st = Return (st', events) ->
  (py_in "error" ai_data = Return true
   /\ st' = st
   /\ exists shown, py_getitem ai_data "error" = Return shown
                    /\ events = [st_error shown])
  \/ (py_in "error" ai_data = Return false
      /\ st' = {| history := history st; staging_data := ai_data |}
      /\ events = [st_rerun]).
Proof.
  unfold handle_analysis.
  destruct (py_in "error" ai_data) as [[|]|e]; [| |discriminate].
  - destruct (py_getitem ai_data "error") as [shown|e]; [|discriminate].
    intros [= <- <-]. left. eauto.
  - intros [= <- <-]. right. auto.
Qed.

Lemma py_in_has_key (key : string) (v : value) :
  has_key key v -> py_in key v = Return true.
Proof.
  intros (d & -> & Hkey). simpl. rewrite bool_decide_eq_true_2 by exact Hkey.
  reflexivity.
Qed.

Lemma handle_analysis_history (ai_data : value) (st st' : session_state)
    (events : list ui_event) :
  handle_analysis ai_data st = Return (st', events) -> history st' = history st.
Proof.
  intros H. apply handle_analysis_cases in H as [(_ & -> & _)|(_ & -> & _)];
    reflexivity.
Qed.

(** C5: whatever [analyze_gauge] returned, if the result holds an
    [error] key then the handler leaves the session as it was, so
    nothing is staged, and shows the error entry; and whenever the
    handler does stage, it is the result itself that is staged and it
    holds no [error] key. *)
Theorem staged_only_without_error_key
    (client : client_t) (base64_img : string) (log : list request)
    (st : session_state) (ai_data : value) :
  fst (analyze_gauge client base64_img log) = Return ai_data ->
  (has_key "error" ai_data ->
   exists shown,
     py_getitem ai_data "error" = Return shown
     /\ fst (analyze_telemetry client base64_img st log)
        = Return (st, [st_error shown]))
  /\ (forall st' events,
         fst (analyze_telemetry client base64_img st log) = Return (st', events) ->
         st' <> st \/ In st_rerun events ->
         staging_data st' = ai_data
         /\ history st' = history st
         /\ ~ has_key "error" ai_data).
Proof.
  intros Hrun.
  assert (Htel : fst (analyze_telemetry client base64_img st log)
                 = handle_analysis ai_data st).
  { unfold analyze_telemetry, io_bind, io_lift.
    destruct (analyze_gauge client base64_img log) as [r log'].
    simpl in Hrun. subst r. reflexivity. }
  rewrite Htel. split.
  - intros Hkey. pose proof (py_in_has_key _ _ Hkey) as Hin.
    destruct Hkey as (d & -> & [shown Hshown]).
    exists shown. unfold handle_analysis. rewrite Hin. simpl.
    rewrite Hshown. auto.
  - intros st' events Hhandled Hstaged.
    apply handle_analysis_cases in Hhandled
      as [(_ & -> & shown & _ & ->)|(Hin & -> & ->)].
    + destruct Hstaged as [Hne|Hin]; [congruence|].
      simpl in Hin. destruct Hin as [Hin|[]]. discriminate.
    + split; [reflexivity|]. split; [reflexivity|].
      intros Hkey. rewrite (py_in_has_key _ _ Hkey) in Hin. discriminate.
Qed.

(** With every candidate down the result holds [error]: the session
    is left as it was and the message is shown.  With a candidate that
    answers the steady reading, the mapping is staged. *)
Lemma all_down_is_not_staged :
  (exists shown,
      py_getitem (all_failed "connection error") "error" = Return shown
      /\ fst (analyze_telemetry all_down "" initial_session [])
         = Return (initial_session, [st_error shown]))
  /\ (staging_data {| history := []; staging_data := steady_mapping |} = steady_mapping
      /\ history {| history := []; staging_data := steady_mapping |}
         = history initial_session
      /\ ~ has_key "error" steady_mapping).
Proof.
  split.
  - apply (proj1 (staged_only_without_error_key all_down "" [] initial_session
                    (all_failed "connection error") eq_refl)).
    eexists. split; [reflexivity|]. rewrite lookup_singleton_eq. eauto.
  - apply (proj2 (staged_only_without_error_key
                    (always_answers steady_body) "" [] initial_session
                    steady_mapping ltac:(vm_compute; reflexivity))
             {| history := []; staging_data := steady_mapping |} [st_rerun]).
    + vm_compute. reflexivity.
    + right. left. reflexivity.
Defined.

(** ** The session log *)

Lemma run_history (actions : list action) :
  forall st,
    history (run actions st) = (rev (committed_records actions) ++ history st)%list.
Proof.
  unfold run.
  induction actions as [|a actions IH]; intros st; [reflexivity|].
  cbn [fold_left]. rewrite IH. destruct a as [ai_data|timestamp f].
  - cbn [committed_records step].
    destruct (handle_analysis ai_data st) as [[st' events]|e] eqn:H;
      [|reflexivity].
    rewrite (handle_analysis_history _ _ _ _ H). reflexivity.
  - cbn [committed_records step commit fst history rev].
    rewrite <- app_assoc. reflexivity.
Qed.

(** C6: a commit puts the new record at the front of the log and sets
    the staging slot to [None], whatever was staged.  After any run of
    analyses and commits the log is the committed records, newest
    first, followed by the log the run started from, which is left
    untouched; in particular so after [N] commits in a row. *)
Theorem commit_prepends_and_clears :
  (forall timestamp f st,
      fst (commit timestamp f st)
      = {| history := make_record timestamp f :: history st;
           staging_data := PyNone |})
  /\ (forall actions st,
         history (run actions st)
         = (rev (committed_records actions) ++ history st)%list)
  /\ (forall actions st,
         drop (length (committed_records actions)) (history (run actions st))
         = history st)
  /\ (forall (commits : list (string * form_values)) st,
         history (run (map (fun p => Committed (fst p) (snd p)) commits) st)
         = (rev (map (fun p => make_record (fst p) (snd p)) commits)
              ++ history st)%list).
Proof.
  split; [reflexivity|]. split; [intros; apply run_history|]. split.
  - intros actions st. rewrite run_history.
    rewrite <- length_rev. apply drop_app_length.
  - intros commits st. rewrite run_history. f_equal. f_equal.
    induction commits as [|[timestamp f] commits IH]; [reflexivity|].
    simpl. rewrite IH. reflexivity.
Qed.

(** ** Results that are not mappings *)

(** C9: ["42"] and ["[1, 2]"] are valid JSON and [extract_json]
    returns an [int] and a [list] for them, neither a mapping.
    [analyze_gauge] forwards such a value.  On the [int] the membership
    test of the handler raises a [TypeError], so the handler neither
    shows an error nor stages; on the [list] the test is false and the
    list is staged as if it were a reading. *)
Theorem non_mapping_results_reach_the_handler :
  extract_json "42" = Return (PyInt 42)
  /\ extract_json "[1, 2]" = Return (PyList [PyInt 1; PyInt 2])
  /\ ~ is_mapping (PyInt 42)
  /\ ~ is_mapping (PyList [PyInt 1; PyInt 2])
  /\ fst (analyze_gauge (always_answers "42") "" []) = Return (PyInt 42)
  /\ py_in "error" (PyInt 42)
     = Raise (Exn TypeError "argument of type 'int' is not iterable")
  /\ (forall st,
         fst (analyze_telemetry (always_answers "42") "" st [])
         = Raise (Exn TypeError "argument of type 'int' is not iterable"))
  /\ (forall st,
         fst (analyze_telemetry (always_answers "[1, 2]") "" st [])
         = Return ({| history := history st;
                      staging_data := PyList [PyInt 1; PyInt 2] |},
                   [st_rerun])).
Proof.
  split; [vm_compute; reflexivity|].
  split; [vm_compute; reflexivity|].
  split; [intros [d Hd]; discriminate|].
  split; [intros [d Hd]; discriminate|].
  split; [vm_compute; reflexivity|].
  split; [reflexivity|].
  split; intros st; vm_compute; reflexivity.
Qed.

(** * Further properties of the extraction, the chain and the session *)

(** ** Prose around one object *)

Lemma match_any_then_rbrace_none (s : string) :
  find_last "}" s = None -> re.match_any_then_rbrace s = None.
Proof. intros H. rewrite match_any_then_rbrace_last, H. reflexivity. Qed.

Lemma match_any_then_rbrace_app (mid tail : string) :
  find_last "}" tail = None ->
  re.match_any_then_rbrace (mid +:+ String "}" tail) = Some (mid +:+ "}").
Proof.
  intros Htail. induction mid as [|c mid IH].
  - change (re.match_any_then_rbrace (String "}" tail) = Some "}").
    cbn [re.match_any_then_rbrace].
    rewrite (match_any_then_rbrace_none _ Htail). reflexivity.
  - change (re.match_any_then_rbrace (String c (mid +:+ String "}" tail))
            = Some (String c (mid +:+ "}"))).
    cbn [re.match_any_then_rbrace]. rewrite IH. reflexivity.
Qed.

Lemma search_braces_skip (lead s : string) :
  find_first "{" lead = None ->
  re.search_braces (lead +:+ s) = re.search_braces s.
Proof.
  induction lead as [|c lead IH]; [reflexivity|].
  change (String c lead +:+ s) with (String c (lead +:+ s)).
  cbn [find_first re.search_braces].
  destruct (ascii_eqb c "{"); [discriminate|].
  destruct (find_first "{" lead); [discriminate|]. auto.
Qed.

(** X1: when the strict parse of a text fails with a decode error and
    the text consists of a lead without an opening brace, one
    brace-delimited span, and a tail without a closing brace,
    [extract_json] returns what the span parses to, and the failure
    mapping with the whole text under [raw] when the parse of the span
    raises, whatever it raises.  This holds for any room the stack
    leaves to the decoder. *)
Theorem extract_json_recovers_wrapped_object
    (nesting : nat) (lead mid tail : string) :
  find_first "{" lead = None ->
  find_last "}" tail = None ->
  json.loads_within nesting (lead +:+ String "{" (mid +:+ String "}" tail))
  = Raise json.decode_error ->
  extract_json_within nesting (lead +:+ String "{" (mid +:+ String "}" tail))
  = match json.loads_within nesting (String "{" (mid +:+ "}")) with
    | Return v => Return v
    | Raise _ =>
        Return (parse_failure (lead +:+ String "{" (mid +:+ String "}" tail)))
    end.
Proof.
  intros Hlead Htail Hwhole. unfold extract_json_within.
  rewrite Hwhole, is_JSONDecodeError_decode_error.
  rewrite (search_braces_skip _ _ Hlead).
  cbn [re.search_braces]. change (ascii_eqb "{" "{") with true. cbn iota.
  rewrite (match_any_then_rbrace_app _ _ Htail). reflexivity.
Qed.

(** An object between two sentences is recovered; when the object
    holds the integer of 4301 digits, the parse of the span raises and
    the result is the failure mapping. *)
Lemma fenced_answer_is_recovered :
  extract_json_within json.nesting_limit
    ("Here you go: " +:+ String "{" (lit "'reading': 7" +:+ String "}" " Done."))
  = Return (PyDict {[ "reading" := PyInt 7 ]})
  /\ extract_json_within json.nesting_limit
       ("x " +:+ String "{" ((lit "'reading': " +:+ repeat_char 4301 "1") +:+ String "}" ""))
     = Return (parse_failure
                 ("x " +:+ String "{" ((lit "'reading': " +:+ repeat_char 4301 "1")
                                         +:+ String "}" ""))).
Proof.
  split.
  - rewrite (extract_json_recovers_wrapped_object json.nesting_limit
               "Here you go: " (lit "'reading': 7") " Done."
               eq_refl eq_refl ltac:(vm_compute; reflexivity)).
    vm_compute. reflexivity.
  - rewrite (extract_json_recovers_wrapped_object json.nesting_limit
               "x " (lit "'reading': " +:+ repeat_char 4301 "1") ""
               eq_refl eq_refl ltac:(vm_compute; reflexivity)).
    vm_compute. reflexivity.
Defined.

(** ** When [extract_json] raises *)



(** ** What the chain sends and where its result comes from *)

Lemma attempt_returns_inv (client : client_t) (image_base64 model_id : string)
    (log : list request) (v : value) :
  fst (attempt client image_base64 model_id log) = Return v ->
  exists c first more,
    client log (request_for image_base64 model_id) = Return c
    /\ choices c = first :: more
    /\ extract_json (content (message first)) = Return v.
Proof.
  unfold attempt, io_bind, create, io_lift.
  destruct (client log (request_for image_base64 model_id)) as [c|e];
    [|discriminate].
  destruct (choices c) as [|first more] eqn:Hc; [discriminate|].
  simpl. intros H. exists c, first, more. auto.
Qed.

(** X3: a run of [analyze_gauge] makes at least one and at most three
    requests, and each of them names a configured candidate, asks for
    temperature 0 and a JSON object, and holds one user message with
    the prompt and the data URL of the same image. *)
Theorem every_request_is_deterministic_json_mode
    (client : client_t) (image_base64 : string) (log : list request) :
  exists sent : list request,
    snd (analyze_gauge client image_base64 log) = (log ++ sent)%list
    /\ (1 <= length sent <= 3)%nat
    /\ Forall (fun r =>
                 req_model r ∈ models
                 /\ req_temperature r = 0%Z
                 /\ req_response_format r = PyDict {[ "type" := PyStr "json_object" ]}
                 /\ r = request_for image_base64 (req_model r)) sent.
Proof.
  destruct (try_models_run client image_base64 models "" log)
    as (k & v & Hk & Hrun & Hkind).
  exists (map (request_for image_base64) (take k models)).
  unfold analyze_gauge. rewrite Hrun. split; [reflexivity|]. split.
  - rewrite length_map, length_take.
    destruct Hkind as [(errors & -> & _)
                      |(before & m & after & errors & _ & -> & _)];
      simpl in *; lia.
  - apply Forall_forall. intros r Hr.
    apply list_elem_of_fmap in Hr as (m & -> & Hm).
    split; [|repeat split].
    eapply elem_of_sublist; [exact Hm|apply sublist_take].
Qed.

(** X4: a result of [analyze_gauge] that is not a mapping with an
    [error] key was produced by [extract_json] from the text of a
    completion that the client returned for one of the candidates,
    after the attempts on the candidates before it had raised. *)
Theorem result_without_error_comes_from_a_completion
    (client : client_t) (image_base64 : string) (log : list request)
    (v : value) :
  fst (analyze_gauge client image_base64 log) = Return v ->
  ~ has_key "error" v ->
  exists before model_id after errors c first more,
    models = (before ++ model_id :: after)%list
    /\ attempts_raise client image_base64 before log errors
    /\ client (log ++ map (request_for image_base64) before)%list
              (request_for image_base64 model_id) = Return c
    /\ choices c = first :: more
    /\ extract_json (content (message first)) = Return v.
Proof.
  intros Hres Hnokey.
  destruct (try_models_run client image_base64 models "" log)
    as (k & v' & Hk & Hrun & Hkind).
  unfold analyze_gauge in Hres. rewrite Hrun in Hres. simpl in Hres.
  injection Hres as ->.
  destruct Hkind as [(errors & _ & _ & ->)
                    |(before & m & after & errors & Hm & _ & Hall & Hret)].
  - exfalso. apply Hnokey. eexists. split; [reflexivity|].
    rewrite lookup_singleton_eq. eauto.
  - apply attempt_returns_inv in Hret as (c & first & more & Hreq & Hc & Hjson).
    exists before, m, after, errors, c, first, more. auto.
Qed.

Lemma steady_reading_comes_from_a_completion :
  exists before model_id after errors c first more,
    models = (before ++ model_id :: after)%list
    /\ attempts_raise second_answers "" before [] errors
    /\ second_answers ([] ++ map (request_for "") before)%list
                      (request_for "" model_id) = Return c
    /\ choices c = first :: more
    /\ extract_json (content (message first)) = Return steady_mapping.
Proof.
  apply (result_without_error_comes_from_a_completion second_answers "" []).
  - vm_compute. reflexivity.
  - intros (d & Hd & Hkey). injection Hd as <-.
    vm_compute in Hkey. destruct Hkey as [x Hx]. discriminate.
Defined.

(** ** What the handler does with each kind of result *)

Lemma handle_analysis_mapping (d : gmap string value) (st : session_state) :
  handle_analysis (PyDict d) st
  = match d !! "error" with
    | Some shown => Return (st, [st_error shown])
    | None =>
        Return ({| history := history st; staging_data := PyDict d |}, [st_rerun])
    end.
Proof.
  unfold handle_analysis. simpl.
  destruct (d !! "error") as [shown|] eqn:Hd.
  - rewrite bool_decide_eq_true_2 by eauto. reflexivity.
  - rewrite bool_decide_eq_false_2 by (intros [x Hx]; discriminate). reflexivity.
Qed.


(** X5: on a mapping the Analyze handler never raises: when the
    mapping has an [error] entry the handler shows that entry and
    leaves the session as it was, and when it has none the handler
    stages the mapping and asks for a rerun.  An error is shown for no
    other kind of result, and when the handler raises it is a
    [TypeError] on a result that is not a mapping. *)
Theorem handler_shows_errors_of_mappings_only
    (ai_data : value) (st : session_state) :
  (forall d,
      ai_data = PyDict d ->
      handle_analysis ai_data st
      = match d !! "error" with
        | Some shown => Return (st, [st_error shown])
        | None =>
            Return ({| history := history st; staging_data := ai_data |},
                    [st_rerun])
        end)
  /\ (forall st' events shown,
         handle_analysis ai_data st = Return (st', events) ->
         In (st_error shown) events ->
         st' = st /\ exists d, ai_data = PyDict d /\ d !! "error" = Some shown)
  /\ (forall e,
         handle_analysis ai_data st = Raise e ->
         exn_class_of e = TypeError /\ ~ is_mapping ai_data).
Proof.
  split; [|split].
  - intros d ->. apply handle_analysis_mapping.
  - intros st' events shown H Hin.
    apply handle_analysis_cases in H
      as [(Hk & -> & shown' & Hget & ->)|(_ & _ & ->)].
    + destruct Hin as [[= ->]|[]]. split; [reflexivity|].
      destruct ai_data; simpl in Hget; try discriminate.
      destruct (entries !! "error") eqn:Hd; [|discriminate].
      injection Hget as ->. eauto.
    + destruct Hin as [Hin|[]]. discriminate.
  - intros e H. unfold handle_analysis in H.
    destruct ai_data; simpl in H;
      try (injection H as <-; split; [reflexivity|intros [d Hd]; discriminate]).
    + destruct (contains_substring "error" s); [|discriminate].
      injection H as <-. split; [reflexivity|intros [d Hd]; discriminate].
    + destruct (existsb (eq_str "error") items); [|discriminate].
      injection H as <-. split; [reflexivity|intros [d Hd]; discriminate].
    + destruct (bool_decide (is_Some (entries !! "error"))) eqn:Hb;
        [|discriminate].
      apply bool_decide_eq_true_1 in Hb as [x Hx]. rewrite Hx in H.
      discriminate.
Qed.

(** The steady reading is staged, the mapping of an exhausted chain is
    shown, and a number makes the handler raise. *)
Lemma steady_mapping_is_handled :
  handle_analysis steady_mapping initial_session
  = Return ({| history := []; staging_data := steady_mapping |}, [st_rerun])
  /\ handle_analysis (all_failed "connection error") initial_session
     = Return (initial_session,
               [st_error (PyStr "All models failed. Last error: connection error")])
  /\ (exn_class_of (Exn TypeError "argument of type 'int' is not iterable") = TypeError
      /\ ~ is_mapping (PyInt 42)).
Proof.
  split; [|split].
  - rewrite (proj1 (handler_shows_errors_of_mappings_only steady_mapping
                      initial_session) _ eq_refl).
    vm_compute. reflexivity.
  - rewrite (proj1 (handler_shows_errors_of_mappings_only
                      (all_failed "connection error") initial_session) _ eq_refl).
    vm_compute. reflexivity.
  - apply (proj2 (proj2 (handler_shows_errors_of_mappings_only (PyInt 42)
                           initial_session))).
    reflexivity.
Defined.

(** ** An invariant of the session *)

Lemma step_session_ok (st : session_state) (a : action) :
  session_ok st -> session_ok (step st a).
Proof.
  intros [Hlog Hstage]. destruct a as [ai_data|timestamp f]; simpl.
  - destruct (handle_analysis ai_data st) as [[st' events]|e] eqn:H;
      [|split; assumption].
    apply handle_analysis_cases in H as [(_ & -> & _)|(Hin & -> & _)].
    + split; assumption.
    + split; [exact Hlog|right; exact Hin].
  - split; [|left; reflexivity].
    simpl. apply Forall_cons. split; [reflexivity|exact Hlog].
Qed.

(** X6: from the empty session on, whatever analyses and commits
    follow, every row of the log is marked verified, and the staging
    slot is [None] or holds a value in which the membership test found
    no [error]: a result with an [error] key is never staged. *)
Theorem session_invariant (actions : list action) :
  session_ok (run actions initial_session)
  /\ ~ has_key "error" (staging_data (run actions initial_session)).
Proof.
  assert (Hinv : forall st, session_ok st -> session_ok (run actions st)).
  { unfold run. induction actions as [|a actions IH]; intros st Hst;
      [exact Hst|].
    simpl. apply IH. apply step_session_ok. exact Hst. }
  assert (Hok : session_ok (run actions initial_session)).
  { apply Hinv. split; [constructor|left; reflexivity]. }
  split; [exact Hok|].
  destruct Hok as [_ [Hnone|Hin]]; intros Hkey.
  - destruct Hkey as (d & Hd & _). rewrite Hnone in Hd. discriminate.
  - rewrite (py_in_has_key _ _ Hkey) in Hin. discriminate.
Qed.

(** ** The verification form *)

Section FormFacts.

Variable F : float_ops.

Lemma staged_value (ai_data : value) (st st' : session_state)
    (events : list ui_event) :
  handle_analysis ai_data st = Return (st', events) ->
  In st_rerun events ->
  py_in "error" ai_data = Return false
  /\ st' = {| history := history st; staging_data := ai_data |}.
Proof.
  intros H Hin.
  apply handle_analysis_cases in H as [(_ & _ & shown & _ & ->)|(Hk & -> & _)].
  - destruct Hin as [Hin|[]]. discriminate.
  - auto.
Qed.

(** X7: an answer that is an empty object, an empty array or an empty
    string is staged without any message, and the form is then not
    rendered, submit or not; these three are the only staged results
    for which the right column shows nothing. *)
Theorem empty_answers_are_staged_but_hidden
    (ai_data : value) (st : session_state) :
  (ai_data = PyDict ∅ \/ ai_data = PyList [] \/ ai_data = PyStr "" ->
   handle_analysis ai_data st
   = Return ({| history := history st; staging_data := ai_data |}, [st_rerun])
   /\ forall submitted,
        verification_panel F submitted
          {| history := history st; staging_data := ai_data |}
        = Done ({| history := history st; staging_data := ai_data |},
                NotRendered, []))
  /\ (forall st' events,
         handle_analysis ai_data st = Return (st', events) ->
         In st_rerun events ->
         (forall submitted,
             verification_panel F submitted st' = Done (st', NotRendered, [])) ->
         ai_data = PyDict ∅ \/ ai_data = PyList [] \/ ai_data = PyStr "").
Proof.
  split.
  - intros [-> | [-> | ->]]; (split; [reflexivity|intros submitted; reflexivity]).
  - intros st' events H Hin Hhidden.
    destruct (staged_value _ _ _ _ H Hin) as [Hk ->].
    specialize (Hhidden None).
    unfold verification_panel in Hhidden. cbn [staging_data] in Hhidden.
    destruct (py_truthy F ai_data) eqn:Ht.
    + destruct (form_defaults F ai_data); discriminate.
    + destruct ai_data; simpl in Hk, Ht; try discriminate.
      * right; right. destruct s; [reflexivity|discriminate].
      * right; left. destruct items; [reflexivity|discriminate].
      * left. apply negb_false_iff, bool_decide_eq_true_1 in Ht.
        rewrite Ht. reflexivity.
Qed.

(** X8: a staged result that is not a mapping and not empty makes the
    right column raise an [AttributeError] at the first lookup in the
    form, in every run and whatever is submitted, so nothing can be
    committed from it. *)
Theorem staged_non_mapping_breaks_the_form
    (ai_data : value) (st st' : session_state) (events : list ui_event) :
  handle_analysis ai_data st = Return (st', events) ->
  In st_rerun events ->
  ~ is_mapping ai_data ->
  ai_data <> PyList [] ->
  ai_data <> PyStr "" ->
  forall submitted,
    verification_panel F submitted st'
    = Failed (AttributeError
                ("'" +:+ type_name ai_data +:+ "' object has no attribute 'get'")).
Proof.
  intros H Hin Hmap Hlist Hstr submitted.
  destruct (staged_value _ _ _ _ H Hin) as [Hk ->].
  unfold verification_panel. cbn [staging_data].
  destruct ai_data; simpl in Hk; try discriminate.
  - destruct s; [congruence|reflexivity].
  - destruct items; [congruence|reflexivity].
  - exfalso. apply Hmap. eexists. reflexivity.
Qed.

Lemma scan_options_last_match (options : list string) (ai_cond : value) :
  forall i default_idx idx,
    scan_options options i ai_cond default_idx = Return idx ->
    (idx = default_idx
     /\ forall opt, opt ∈ options -> py_in opt ai_cond = Return false)
    \/ (exists j opt,
           options !! j = Some opt
           /\ idx = (i + j)%nat
           /\ py_in opt ai_cond = Return true
           /\ forall j' opt',
                (j < j')%nat -> options !! j' = Some opt' ->
                py_in opt' ai_cond = Return false).
Proof.
  induction options as [|opt rest IH]; intros i default_idx idx H; simpl in H.
  - injection H as <-. left. split; [reflexivity|].
    intros opt Hopt. inversion Hopt.
  - destruct (py_in opt ai_cond) as [[|]|e] eqn:Hin; [| |discriminate].
    + apply IH in H as [(-> & Hnone)|(j & opt' & Hj & -> & Hopt' & Hlater)].
      * right. exists 0%nat, opt. split; [reflexivity|].
        split; [lia|]. split; [exact Hin|].
        intros [|j'] opt' Hlt Hj'; [lia|]. simpl in Hj'.
        apply Hnone. eapply list_elem_of_lookup_2. exact Hj'.
      * right. exists (S j), opt'. split; [exact Hj|]. split; [lia|].
        split; [exact Hopt'|].
        intros [|j'] opt'' Hlt Hj'; [lia|]. simpl in Hj'.
        apply (Hlater j' opt''); [lia|exact Hj'].
    + apply IH in H as [(-> & Hnone)|(j & opt' & Hj & -> & Hopt' & Hlater)].
      * left. split; [reflexivity|]. intros o Ho.
        apply elem_of_cons in Ho as [->|Ho]; [exact Hin|apply Hnone; exact Ho].
      * right. exists (S j), opt'. split; [exact Hj|]. split; [lia|].
        split; [exact Hopt'|].
        intros [|j'] opt'' Hlt Hj'; [lia|]. simpl in Hj'.
        apply (Hlater j' opt''); [lia|exact Hj'].
Qed.

Lemma form_defaults_inv (stage : value) (view : form_view) :
  form_defaults F stage = Done view ->
  exists d,
    stage = PyDict d
    /\ scan_options cond_options 0
         (match d !! "condition" with Some v => v | None => PyStr "Good" end) 0
       = Return (condition_index view).
Proof.
  unfold form_defaults.
  destruct stage; cbn [py_get outcome_bind]; try discriminate.
  intros H. exists entries. split; [reflexivity|].
  destruct (py_float _) as [x|e]; cbn [of_result outcome_bind] in H;
    [|discriminate].
  unfold number_input in H.
  destruct (float_in_js_bounds F x); cbn [outcome_bind] in H; [|discriminate].
  destruct (scan_options cond_options 0 _ 0) as [idx|e];
    cbn [of_result outcome_bind] in H; [|discriminate].
  injection H as <-. reflexivity.
Qed.

(** X9: when the form is reached, the index handed to the condition
    selectbox is a valid position of the four options.  It is the
    position of the last option, in the order Good, Warning, Critical,
    Damaged, that occurs in the [condition] of the staged mapping
    (Good when the key is missing), and 0, which is Good, when none
    occurs. *)
Theorem preselected_condition_is_the_last_match
    (stage : value) (view : form_view) :
  form_defaults F stage = Done view ->
  exists d,
    stage = PyDict d
    /\ (condition_index view < length cond_options)%nat
    /\ (forall j opt,
           cond_options !! j = Some opt ->
           py_in opt (match d !! "condition" with Some v => v | None => PyStr "Good" end)
           = Return true ->
           (j <= condition_index view)%nat)
    /\ (condition_index view <> 0%nat ->
        exists opt,
          cond_options !! condition_index view = Some opt
          /\ py_in opt (match d !! "condition" with Some v => v | None => PyStr "Good" end)
             = Return true).
Proof.
  intros H. apply form_defaults_inv in H as (d & -> & Hscan).
  exists d. split; [reflexivity|].
  apply scan_options_last_match in Hscan
    as [(Hidx & Hnone)|(j & opt & Hj & Hidx & Hopt & Hlater)].
  - rewrite Hidx. split; [simpl; lia|]. split; [|congruence].
    intros j opt Hj Hin. rewrite Hnone in Hin; [discriminate|].
    eapply list_elem_of_lookup_2. exact Hj.
  - simpl in Hidx. rewrite Hidx. split; [|split].
    + apply lookup_lt_Some in Hj. exact Hj.
    + intros j' opt' Hj' Hin.
      destruct (decide (j' <= j)%nat) as [Hle|Hgt]; [exact Hle|].
      rewrite (Hlater j' opt') in Hin; [discriminate|lia|exact Hj'].
    + intros _. exists opt. auto.
Qed.

(** X10: the default [Good] applies only when the key [condition] is
    missing.  When the staged mapping holds [condition] with [null], a
    number or a boolean, the form never reaches its widgets for the
    condition: it raises, and when the reading could be converted and
    the number input took it, the exception is the [TypeError] of the
    membership test. *)
Theorem scalar_condition_breaks_the_form
    (d : gmap string value) (v : value) :
  d !! "condition" = Some v ->
  not_a_container v ->
  (forall view, form_defaults F (PyDict d) <> Done view)
  /\ (forall x,
         py_float F (py_or F (match d !! "reading" with Some r => r | None => PyNone end)
                       (PyFloat (FloatOf "0.0"))) = Return x ->
         float_in_js_bounds F x = true ->
         form_defaults F (PyDict d)
         = Failed (Builtin (Exn TypeError
                              ("argument of type '" +:+ type_name v
                                 +:+ "' is not iterable")))).
Proof.
  intros Hd Hv.
  assert (Hscan : scan_options cond_options 0 v 0
                  = Raise (Exn TypeError
                             ("argument of type '" +:+ type_name v
                                +:+ "' is not iterable"))).
  { destruct v; simpl in Hv; try contradiction; reflexivity. }
  unfold form_defaults, number_input. cbn [py_get outcome_bind]. rewrite Hd. split.
  - intros view.
    destruct (py_float _) as [x|e]; cbn [of_result outcome_bind];
      [|discriminate].
    destruct (float_in_js_bounds F x); cbn [outcome_bind]; [|discriminate].
    rewrite Hscan. discriminate.
  - intros x -> Hx. cbn [of_result outcome_bind]. rewrite Hx.
    cbn [outcome_bind]. rewrite Hscan. reflexivity.
Qed.

Lemma rerun_step_length (st : session_state) (r : rerun) :
  (length (history (rerun_step F st r))
   + (if py_truthy F (staging_data (rerun_step F st r)) then 1 else 0)
   <= length (history st)
      + (if py_truthy F (staging_data st) then 1 else 0)
      + (if is_staged r then 1 else 0))%nat.
Proof.
  destruct r as [ai_data|submitted]; cbn [rerun_step is_staged step].
  - destruct (handle_analysis ai_data st) as [[st' events]|e] eqn:H.
    + apply handle_analysis_cases in H as [(_ & -> & _)|(Hin & -> & _)].
      * lia.
      * rewrite Hin. cbn [history staging_data].
        destruct (py_truthy F ai_data), (py_truthy F (staging_data st)); lia.
    + lia.
  - unfold verification_panel.
    destruct (py_truthy F (staging_data st)) eqn:Ht; [|rewrite Ht; lia].
    destruct (form_defaults F (staging_data st)) as [view|e];
      cbn [outcome_bind]; [|rewrite Ht; lia].
    destruct submitted as [[timestamp f]|]; cbn [commit history staging_data];
      [|rewrite Ht; lia].
    simpl. lia.
Qed.

(** X11: over any sequence of reruns that starts from the empty
    session, the log never holds more rows than analyses were staged:
    every row was committed from a staged result, and a staged result
    is committed at most once. *)
Theorem no_more_records_than_staged_results (rs : list rerun) :
  (length (history (reruns F rs initial_session))
   <= length (filter (fun r => is_staged r = true) rs))%nat.
Proof.
  assert (Hgen : forall st,
             (length (history (reruns F rs st))
              + (if py_truthy F (staging_data (reruns F rs st)) then 1 else 0)
              <= length (history st)
                 + (if py_truthy F (staging_data st) then 1 else 0)
                 + length (filter (fun r => is_staged r = true) rs))%nat).
  { unfold reruns. induction rs as [|r rs IH]; intros st; [simpl; lia|].
    cbn [fold_left]. specialize (IH (rerun_step F st r)).
    pose proof (rerun_step_length st r) as Hstep.
    rewrite filter_cons. destruct (decide (is_staged r = true)) as [Hs|Hs].
    - rewrite Hs in Hstep. simpl. lia.
    - destruct (is_staged r); [congruence|]. lia. }
  specialize (Hgen initial_session). simpl in Hgen. lia.
Qed.

End FormFacts.

(** The empty object is staged from the empty session and the right
    column then shows nothing. *)
Lemma empty_object_is_hidden :
  handle_analysis (PyDict ∅) initial_session
  = Return ({| history := []; staging_data := PyDict ∅ |}, [st_rerun])
  /\ forall submitted,
       verification_panel literal_floats submitted
         {| history := []; staging_data := PyDict ∅ |}
       = Done ({| history := []; staging_data := PyDict ∅ |}, NotRendered, []).
Proof.
  apply (proj1 (empty_answers_are_staged_but_hidden literal_floats (PyDict ∅)
                  initial_session)).
  left. reflexivity.
Defined.

Lemma staged_list_breaks_the_form :
  verification_panel literal_floats
    (Some ("12:00:00",
           {| new_reading := FloatOf "1.0"; new_unit := "PSI";
              new_condition := "Good"; new_notes := "" |}))
    {| history := []; staging_data := PyList [PyInt 1; PyInt 2] |}
  = Failed (AttributeError "'list' object has no attribute 'get'").
Proof.
  apply (staged_non_mapping_breaks_the_form literal_floats
           (PyList [PyInt 1; PyInt 2]) initial_session
           {| history := []; staging_data := PyList [PyInt 1; PyInt 2] |}
           [st_rerun]).
  - reflexivity.
  - left. reflexivity.
  - intros [d Hd]. discriminate.
  - discriminate.
  - discriminate.
Defined.

(** The template of the prompt echoed as the condition preselects
    Critical, the last option it names. *)
Lemma echoed_template_preselects_critical :
  exists opt,
    cond_options !! 2%nat = Some opt
    /\ py_in opt (PyStr "<Good/Warning/Critical>") = Return true.
Proof.
  assert (Hform : form_defaults literal_floats
                    (PyDict {[ "condition" := PyStr "<Good/Warning/Critical>" ]})
                  = Done {| reading_value := FloatOf "0.0";
                            unit_value := PyStr "PSI";
                            condition_index := 2;
                            notes_value := PyStr "" |})
    by (vm_compute; reflexivity).
  destruct (preselected_condition_is_the_last_match literal_floats _ _ Hform)
    as (d & Hd & _ & _ & Hlast).
  injection Hd as <-.
  destruct (Hlast ltac:(discriminate)) as (opt & Hopt & Hin).
  exists opt. split; [exact Hopt|]. exact Hin.
Defined.

(** With [null] as the condition and no reading the form raises the
    [TypeError]; with the reading [1e999], which [float] keeps and the
    number input refuses, it raises before the condition is looked
    at. *)
Lemma null_condition_breaks_the_form :
  ((forall view,
       form_defaults literal_floats (PyDict {[ "condition" := PyNone ]}) <> Done view)
   /\ form_defaults literal_floats (PyDict {[ "condition" := PyNone ]})
      = Failed (Builtin (Exn TypeError "argument of type 'NoneType' is not iterable")))
  /\ ((forall view,
         form_defaults literal_floats
           (PyDict {[ "condition" := PyNone; "reading" := PyFloat (FloatOf "1e999") ]})
         <> Done view)
      /\ form_defaults literal_floats
           (PyDict {[ "condition" := PyNone; "reading" := PyFloat (FloatOf "1e999") ]})
         = Failed StreamlitJSNumberBoundsError).
Proof.
  split.
  - assert (Hd : ({[ "condition" := PyNone ]} : gmap string value) !! "condition"
                 = Some PyNone) by (vm_compute; reflexivity).
    destruct (scalar_condition_breaks_the_form literal_floats
                {[ "condition" := PyNone ]} PyNone Hd I) as [Hnever Htype].
    split; [exact Hnever|].
    apply (Htype (FloatOf "0.0")); vm_compute; reflexivity.
  - assert (Hd : ({[ "condition" := PyNone; "reading" := PyFloat (FloatOf "1e999") ]}
                   : gmap string value) !! "condition"
                 = Some PyNone) by (vm_compute; reflexivity).
    destruct (scalar_condition_breaks_the_form literal_floats
                {[ "condition" := PyNone; "reading" := PyFloat (FloatOf "1e999") ]}
                PyNone Hd I) as [Hnever _].
    split; [exact Hnever|]. vm_compute. reflexivity.
Defined.

(** ** The encoded image *)

Lemma sextet_of_char_of (s : base64.sextet) :
  base64.sextet_of (base64.char_of s) = Some s.
Proof.
  destruct s as [[[[[b5 b4] b3] b2] b1] b0].
  destruct b5, b4, b3, b2, b1, b0; vm_compute; reflexivity.
Qed.

Lemma char_of_is_not_pad (s : base64.sextet) :
  base64.is_pad (base64.char_of s) = false.
Proof.
  destruct s as [[[[[b5 b4] b3] b2] b1] b0].
  destruct b5, b4, b3, b2, b1, b0; vm_compute; reflexivity.
Qed.

Lemma char_of_is_base64 (s : base64.sextet) :
  base64.is_base64_char (base64.char_of s) = true.
Proof.
  destruct s as [[[[[b5 b4] b3] b2] b1] b0].
  destruct b5, b4, b3, b2, b1, b0; vm_compute; reflexivity.
Qed.

Lemma first_byte_sextets (a b : ascii) :
  base64.first_byte (base64.first_sextet a) (base64.second_sextet a b) = a.
Proof. destruct a, b. reflexivity. Qed.

Lemma second_byte_sextets (a b c : ascii) :
  base64.second_byte (base64.second_sextet a b) (base64.third_sextet b c) = b.
Proof. destruct a, b, c. reflexivity. Qed.

Lemma third_byte_sextets (b c : ascii) :
  base64.third_byte (base64.third_sextet b c) (base64.fourth_sextet c) = c.
Proof. destruct b, c. reflexivity. Qed.

Lemma by_triples {A} (P : list A -> Prop) :
  P [] ->
  (forall a, P [a]) ->
  (forall a b, P [a; b]) ->
  (forall a b c rest, P rest -> P (a :: b :: c :: rest)) ->
  forall l, P l.
Proof.
  intros H0 H1 H2 H3.
  assert (H : forall l, P l /\ (forall a, P (a :: l)) /\ (forall a b, P (a :: b :: l))).
  { induction l as [|x l (IH0 & IH1 & IH2)]; [auto|].
    split; [apply IH1|]. split; [intros a; apply IH2|].
    intros a b. apply H3. exact IH0. }
  intros l. apply H.
Qed.

Lemma decode_encode (data : list ascii) :
  base64.decode (base64.encode data) = Some data.
Proof.
  induction data as [|a|a b|a b c rest IH] using by_triples.
  - reflexivity.
  - cbn [base64.encode base64.decode].
    rewrite !sextet_of_char_of.
    change (base64.is_pad "=") with true. cbn iota.
    rewrite first_byte_sextets. reflexivity.
  - cbn [base64.encode base64.decode].
    rewrite !sextet_of_char_of, char_of_is_not_pad.
    change (base64.is_pad "=") with true. cbn iota.
    rewrite first_byte_sextets, second_byte_sextets. reflexivity.
  - cbn [base64.encode base64.decode].
    rewrite !sextet_of_char_of, !char_of_is_not_pad, IH.
    rewrite first_byte_sextets, second_byte_sextets, third_byte_sextets.
    reflexivity.
Qed.

Lemma encode_length (data : list ascii) :
  String.length (base64.encode data) = (4 * ((length data + 2) / 3))%nat.
Proof.
  induction data as [|a|a b|a b c rest IH] using by_triples;
    try reflexivity.
  cbn [base64.encode String.length length]. rewrite IH.
  replace (S (S (S (length rest))) + 2)%nat
    with ((length rest + 2) + 1 * 3)%nat by lia.
  rewrite Nat.div_add by lia. lia.
Qed.

Lemma encode_chars (data : list ascii) :
  all_chars base64.is_base64_char (base64.encode data) = true.
Proof.
  induction data as [|a|a b|a b c rest IH] using by_triples;
    cbn [base64.encode all_chars]; rewrite ?char_of_is_base64, ?IH;
    reflexivity.
Qed.

Lemma b64decode_b64encode (data : list Byte.byte) :
  base64.b64decode (base64.b64encode data) = Some data.
Proof.
  unfold base64.b64decode, base64.b64encode. rewrite decode_encode.
  simpl. f_equal. induction data as [|b data IH]; [reflexivity|].
  simpl. rewrite byte_of_ascii_of_byte, IH. reflexivity.
Qed.

Section EncoderFacts.

Variable image : Type.
Variable pil_error : Type.
Variable thumbnail : image -> nat * nat -> pil_error + image.
Variable save : image -> string -> nat -> pil_error + list Byte.byte.

(** X12: whatever the image library does, when
    [encode_image_to_base64] returns a text, the image was shrunk to
    fit 800 by 800 and saved as JPEG at quality 85, the text decodes
    back to exactly the bytes that were saved, and it has four
    characters for every three bytes, rounded up. *)
Theorem encoded_image_decodes_to_the_saved_bytes
    (img : image) (text : string) :
  encode_image_to_base64 image pil_error thumbnail save img = inr text ->
  exists small buffered,
    thumbnail img (800, 800)%nat = inr small
    /\ save small "JPEG" 85%nat = inr buffered
    /\ base64.b64decode text = Some buffered
    /\ String.length text = (4 * ((length buffered + 2) / 3))%nat.
Proof.
  unfold encode_image_to_base64.
  destruct (thumbnail img (800, 800)%nat) as [e|small]; [discriminate|].
  destruct (save small "JPEG" 85%nat) as [e|buffered] eqn:Hsave;
    [discriminate|].
  intros [= <-]. exists small, buffered.
  split; [reflexivity|]. split; [exact Hsave|].
  split; [apply b64decode_b64encode|].
  unfold base64.b64encode. rewrite encode_length, length_map. reflexivity.
Qed.

(** X13: the text that [encode_image_to_base64] returns consists of
    letters, digits, [+], [/] and [=] only, so it holds no quote, no
    backslash, no blank and no control character: it can be put into
    the data URL of the request as it is. *)
Theorem encoded_image_is_plain_base64_text
    (img : image) (text : string) :
  encode_image_to_base64 image pil_error thumbnail save img = inr text ->
  all_chars base64.is_base64_char text = true
  /\ all_chars (fun c => negb (ascii_eqb c dquote) && negb (ascii_eqb c backslash)
                         && (32 <? nat_of_ascii c)%nat
                         && (nat_of_ascii c <? 127)%nat) text = true.
Proof.
  unfold encode_image_to_base64.
  destruct (thumbnail img (800, 800)%nat) as [e|small]; [discriminate|].
  destruct (save small "JPEG" 85%nat) as [e|buffered]; [discriminate|].
  intros [= <-]. unfold base64.b64encode.
  pose proof (encode_chars (map ascii_of_byte buffered)) as Hchars.
  split; [exact Hchars|].
  revert Hchars. generalize (base64.encode (map ascii_of_byte buffered)).
  intros s. induction s as [|c s IH]; [reflexivity|].
  cbn [all_chars]. intros H. apply andb_true_iff in H as [Hc Hs].
  rewrite (IH Hs), andb_true_r. clear IH Hs. revert Hc.
  destruct c as [[] [] [] [] [] [] [] []]; vm_compute; congruence.
Qed.

End EncoderFacts.

Lemma stored_image_round_trip :
  exists small buffered,
    stored_thumbnail [Byte.x01; Byte.x02; Byte.x03; Byte.x04] (800, 800)%nat = inr small
    /\ stored_save small "JPEG" 85%nat = inr buffered
    /\ base64.b64decode "AQIDBA==" = Some buffered
    /\ String.length "AQIDBA==" = (4 * ((length buffered + 2) / 3))%nat.
Proof.
  apply (encoded_image_decodes_to_the_saved_bytes
           (list Byte.byte) string stored_thumbnail stored_save
           [Byte.x01; Byte.x02; Byte.x03; Byte.x04] "AQIDBA==").
  vm_compute. reflexivity.
Defined.

Lemma stored_image_text_is_plain :
  all_chars base64.is_base64_char "AQIDBA==" = true
  /\ all_chars (fun c => negb (ascii_eqb c dquote) && negb (ascii_eqb c backslash)
                         && (32 <? nat_of_ascii c)%nat
                         && (nat_of_ascii c <? 127)%nat) "AQIDBA==" = true.
Proof.
  apply (encoded_image_is_plain_base64_text
           (list Byte.byte) string stored_thumbnail stored_save
           [Byte.x01; Byte.x02; Byte.x03; Byte.x04] "AQIDBA==").
  vm_compute. reflexivity.
Defined.

(** ** Answers that are JSON objects *)

Lemma loads_of_object_is_mapping (nesting : nat) (text rest : string) (v : value) :
  json.skip_ws text = String "{" rest ->
  json.loads_within nesting text = Return v ->
  is_mapping v.
Proof.
  intros Hstart. unfold json.loads_within. rewrite Hstart.
  replace (2 * String.length text + 2)%nat
    with (S (2 * String.length text + 1)) by lia.
  cbn [json.scan_once].
  change (ascii_eqb "{" dquote) with false.
  change (ascii_eqb "{" "{") with true. cbn iota.
  destruct nesting as [|nesting']; [discriminate|].
  destruct (json.skip_ws rest) as [|k s'']; [discriminate|].
  destruct (ascii_eqb k "}").
  - destruct (json.skip_ws s''); [|discriminate].
    intros [= <-]. eexists. reflexivity.
  - destruct (ascii_eqb k dquote); [|discriminate].
    destruct (json.scan_members _ _ s'' ∅) as [d rest'| | | |]; try discriminate.
    destruct (json.skip_ws rest'); [|discriminate].
    intros [= <-]. eexists. reflexivity.
Qed.

Lemma search_braces_starts (text group : string) :
  re.search_braces text = Some group -> exists m, group = String "{" m.
Proof.
  induction text as [|c s IH]; [discriminate|].
  cbn [re.search_braces].
  destruct (ascii_eqb c "{") eqn:Hc; [|exact IH].
  apply ascii_eqb_eq in Hc. subst c.
  destruct (re.match_any_then_rbrace s) as [m|]; [|exact IH].
  intros [= <-]. eauto.
Qed.

(** What [extract_json] returns from the span is a mapping: a parsed
    object or the failure mapping.  So a result that is not a mapping
    is the strict parse of the whole text. *)
Lemma extract_json_not_mapping (nesting : nat) (text : string) (v : value) :
  extract_json_within nesting text = Return v ->
  ~ is_mapping v ->
  json.loads_within nesting text = Return v.
Proof.
  unfold extract_json_within. intros H Hv.
  destruct (json.loads_within nesting text) as [v'|e]; [exact H|].
  exfalso. apply Hv.
  destruct (is_JSONDecodeError e); [|discriminate].
  destruct (re.search_braces text) as [group|] eqn:Hgroup.
  - destruct (search_braces_starts _ _ Hgroup) as [m ->].
    destruct (json.loads_within nesting (String "{" m)) as [v'|e'] eqn:Hspan.
    + injection H as <-.
      apply (loads_of_object_is_mapping nesting (String "{" m) m); [reflexivity|exact Hspan].
    + injection H as <-. eexists. reflexivity.
  - injection H as <-. eexists. reflexivity.
Qed.

(** X14: when the text of an answer starts, after blanks, with an
    opening brace, which is what the requested JSON object mode
    promises, whatever [extract_json] returns for it is a mapping, the
    parsed object or the failure mapping, so the Analyze handler does
    not raise on it: it shows its [error] entry and leaves the session
    alone, or stages it.  ([extract_json] can still raise on such a
    text, on a long integer or a deep nesting.) *)
Theorem object_answers_are_always_handled
    (nesting : nat) (text rest : string) (v : value) (st : session_state) :
  json.skip_ws text = String "{" rest ->
  extract_json_within nesting text = Return v ->
  exists d,
    v = PyDict d
    /\ handle_analysis v st
       = match d !! "error" with
         | Some shown => Return (st, [st_error shown])
         | None =>
             Return ({| history := history st; staging_data := v |}, [st_rerun])
         end.
Proof.
  intros Hstart Hret.
  assert (Hmap : is_mapping v).
  { destruct v as [| | | | | |d]; try (eexists; reflexivity);
      (apply (loads_of_object_is_mapping nesting text rest); [exact Hstart|];
       apply extract_json_not_mapping; [exact Hret|intros [d Hd]; discriminate]). }
  destruct Hmap as [d ->]. exists d. split; [reflexivity|].
  apply handle_analysis_mapping.
Qed.

(** The steady reading is staged; an object cut off in the middle
    gives the failure mapping, whose [error] entry is shown. *)
Lemma steady_body_is_always_handled :
  (exists d,
      steady_mapping = PyDict d
      /\ handle_analysis steady_mapping initial_session
         = match d !! "error" with
           | Some shown => Return (initial_session, [st_error shown])
           | None =>
               Return ({| history := history initial_session;
                          staging_data := steady_mapping |}, [st_rerun])
           end)
  /\ (exists d,
        parse_failure (lit "{'reading': 4") = PyDict d
        /\ handle_analysis (parse_failure (lit "{'reading': 4")) initial_session
           = match d !! "error" with
             | Some shown => Return (initial_session, [st_error shown])
             | None =>
                 Return ({| history := history initial_session;
                            staging_data := parse_failure (lit "{'reading': 4") |},
                         [st_rerun])
             end).
Proof.
  split.
  - apply (object_answers_are_always_handled json.nesting_limit steady_body
             (lit "'reading': 42.5, 'unit': 'PSI', 'condition': 'Good', 'reasoning': 'steady'}")).
    + vm_compute. reflexivity.
    + vm_compute. reflexivity.
  - apply (object_answers_are_always_handled json.nesting_limit
             (lit "{'reading': 4") (lit "'reading': 4")).
    + vm_compute. reflexivity.
    + vm_compute. reflexivity.
Defined.

(** ** The size and the mode of the encoded image *)

Lemma round_aspect_near (num den : positive) (up : bool) :
  (Z.pos (PIL.round_aspect num den up) * Z.pos den < Z.pos num + Z.pos den)%Z
  /\ (Z.pos num - Z.pos den < Z.pos (PIL.round_aspect num den up) * Z.pos den)%Z.
Proof.
  unfold PIL.round_aspect.
  pose proof (Z.div_mod (Z.pos num) (Z.pos den) ltac:(lia)) as Hdiv.
  pose proof (Z.mod_pos_bound (Z.pos num) (Z.pos den) ltac:(lia)) as Hmod.
  assert (Hq : (0 <= Z.pos num / Z.pos den)%Z) by (apply Z.div_pos; lia).
  set (q := (Z.pos num / Z.pos den)%Z) in *.
  set (r := (Z.pos num mod Z.pos den)%Z) in *.
  destruct (up && negb (r =? 0)%Z) eqn:Hup.
  - apply andb_true_iff in Hup as [_ Hr].
    apply negb_true_iff, Z.eqb_neq in Hr.
    rewrite Z2Pos.id by lia. rewrite Z.max_l by lia. nia.
  - destruct (Z.max_spec q 1) as [[Hlt ->]|[Hge ->]].
    + rewrite Z2Pos.id by lia. assert (q = 0)%Z by lia. nia.
    + rewrite Z2Pos.id by lia. nia.
Qed.

Lemma preserve_aspect_ratio_fits (up : bool) (x y w h w' h' : positive) :
  PIL.preserve_aspect_ratio up x y w h = Some (w', h') ->
  (w' <= x)%positive /\ (h' <= y)%positive
  /\ (w' <= w)%positive /\ (h' <= h)%positive
  /\ (w' = x \/ h' = y)
  /\ (Z.abs (Z.pos w' * Z.pos h - Z.pos h' * Z.pos w) < Z.max (Z.pos w) (Z.pos h))%Z.
Proof.
  unfold PIL.preserve_aspect_ratio.
  destruct ((w <=? x)%positive && (h <=? y)%positive) eqn:Hfit; [discriminate|].
  apply andb_false_iff in Hfit.
  assert (Hbig : (Z.pos x < Z.pos w \/ Z.pos y < Z.pos h)%Z).
  { destruct Hfit as [H|H]; apply Pos.leb_gt in H; lia. }
  destruct (y * w <=? x * h)%positive eqn:Hside.
  - apply Pos.leb_le in Hside. intros [= <- <-].
    destruct (round_aspect_near (y * w) h up) as [Hhi Hlo].
    set (n := PIL.round_aspect (y * w) h up) in *.
    rewrite Pos2Z.inj_mul in Hhi, Hlo.
    assert (Hside' : (Z.pos y * Z.pos w <= Z.pos x * Z.pos h)%Z) by lia.
    assert (Hyh : (Z.pos y < Z.pos h)%Z) by nia.
    assert (Hnx : (Z.pos n <= Z.pos x)%Z) by nia.
    assert (Hnw : (Z.pos n <= Z.pos w)%Z) by nia.
    split; [lia|]. split; [lia|]. split; [lia|]. split; [lia|].
    split; [right; reflexivity|]. lia.
  - apply Pos.leb_gt in Hside. intros [= <- <-].
    destruct (round_aspect_near (x * h) w up) as [Hhi Hlo].
    set (n := PIL.round_aspect (x * h) w up) in *.
    rewrite Pos2Z.inj_mul in Hhi, Hlo.
    assert (Hside' : (Z.pos x * Z.pos h < Z.pos y * Z.pos w)%Z) by lia.
    assert (Hxw : (Z.pos x < Z.pos w)%Z) by nia.
    assert (Hny : (Z.pos n <= Z.pos y)%Z) by nia.
    assert (Hnh : (Z.pos n <= Z.pos h)%Z) by nia.
    split; [lia|]. split; [lia|]. split; [lia|]. split; [lia|].
    split; [left; reflexivity|]. lia.
Qed.

Lemma thumbnail_800 {raster : Type} (c : PIL.codec raster) (img : PIL.image raster) :
  PIL.thumbnail c img (800, 800)%nat
  = match PIL.preserve_aspect_ratio
            (PIL.rounds_up c (PIL.width img) (PIL.height img))
            800 800 (PIL.width img) (PIL.height img) with
    | None => inr img
    | Some final_size =>
        inr {| PIL.mode := PIL.mode img;
               PIL.width := fst final_size;
               PIL.height := snd final_size;
               PIL.pixels := PIL.resample c img final_size |}
    end.
Proof. reflexivity. Qed.

Lemma count_ones_repeat (n : nat) (rest : list Byte.byte) :
  match rest with Byte.x01 :: _ => False | _ => True end ->
  count_ones (repeat Byte.x01 n ++ rest)%list = (n, rest).
Proof.
  intros Hrest. induction n as [|n IH].
  - simpl. destruct rest as [|b rest]; [reflexivity|].
    destruct b; try reflexivity. contradiction.
  - simpl. rewrite IH. reflexivity.
Qed.

Lemma unary_codec_keeps_size (up : bool) : PIL.jpeg_keeps_size (unary_codec up).
Proof.
  intros img quality _ _ _. eexists. split; [reflexivity|].
  cbn [PIL.jpeg_size unary_codec]. unfold unary_size.
  rewrite count_ones_repeat by exact I.
  destruct (Pos2Nat.is_succ (PIL.width img)) as [w Hw]. rewrite Hw.
  pose proof (count_ones_repeat (Pos.to_nat (PIL.height img)) [] I) as Hh.
  rewrite app_nil_r in Hh. rewrite Hh.
  destruct (Pos2Nat.is_succ (PIL.height img)) as [h Hh']. rewrite Hh'.
  f_equal. f_equal.
  - rewrite <- (Pos2Nat.id (PIL.width img)), Hw. apply Pos.of_nat_succ.
  - rewrite <- (Pos2Nat.id (PIL.height img)), Hh'. apply Pos.of_nat_succ.
Qed.



